(** * AMQP channel adapter: a shallow embedding of [src/adapters/amqp.js]

    The adapter of [moleculer-channels] for RabbitMQ is embedded as Rocq
    functions over an explicit adapter state.  Calls made to the external
    collaborators (the [amqplib] channel, the logger, the metrics sink, the
    serializer, the channel handler) are recorded, in program order, in a
    list of events; what those collaborators answer is an input of the
    model.

    Conventions.
    - JavaScript numbers that the adapter manipulates (attempt counter,
      death count, delivery tag, timeouts, clock readings) are integers far
      inside the exactly representable range; they are embedded as [Z], with
      [NaN] made explicit where the code can produce it.
    - [undefined] is [None]; truthiness is written out ([truthy_str],
      [truthy_num], ...).
    - Objects used as dictionaries (message headers, option bags) are
      [gmap string _]; the active-message tracker is a map to [gset string]. *)

From Stdlib Require Import ZArith.
From stdpp Require Import base option list gmap sets strings pretty.

Open Scope string_scope.
Open Scope list_scope.
Open Scope Z_scope.

(** ** JavaScript values *)

Module Js.

(** [!!s] for a string: only the empty string is falsy. *)
Definition truthy_str (s : string) : bool := negb (String.eqb s "").

(** Truthiness of a possibly-undefined string. *)
Definition truthy_ostr (o : option string) : bool :=
  match o with Some s => truthy_str s | None => false end.

(** Truthiness of a possibly-undefined number: [0] and [undefined] are falsy. *)
Definition truthy_num (o : option Z) : bool :=
  match o with Some n => negb (n =? 0) | None => false end.

(** Truthiness of a possibly-undefined boolean. *)
Definition truthy_bool (o : option bool) : bool :=
  match o with Some b => b | None => false end.

(** [a || b] on possibly-undefined strings. *)
Definition or_str (o : option string) (d : string) : string :=
  match o with Some s => if truthy_str s then s else d | None => d end.

(** [`${x}`] for a possibly-undefined string. *)
Definition interp (o : option string) : string :=
  match o with Some s => s | None => "undefined" end.

(** [x > 0] where [x] may be [undefined] ([undefined > 0] is [false]). *)
Definition gt0 (o : option Z) : bool :=
  match o with Some n => 0 <? n | None => false end.

(** A number that may be [NaN]. *)
Inductive Num := Int (n : Z) | NaN.

(** [x++] (the value after the increment). *)
Definition incr (x : Num) : Num :=
  match x with Int n => Int (n + 1) | NaN => NaN end.

(** [x >= y] where [y] may be [undefined]; comparisons with [NaN] are false. *)
Definition geq (x : Num) (y : option Z) : bool :=
  match x, y with Int a, Some b => b <=? a | _, _ => false end.

(** [`${x}`] for a number. *)
Definition show (x : Num) : string :=
  match x with Int n => pretty n | NaN => "NaN" end.

(** [a % b]; the operands are never negative here, and [a % 0] is [NaN]. *)
Definition rem (a b : Z) : Num :=
  if b =? 0 then NaN else Int (Z.rem a b).

(** [arr[i]]: [undefined] outside the array. *)
Definition at_ {A} (arr : list A) (i : Num) : option A :=
  match i with
  | Int n => if n <? 0 then None else arr !! Z.to_nat n
  | NaN => None
  end.

(** [_.defaultsDeep] on a scalar property: the first defined value wins. *)
Definition dflt {A} (x y : option A) : option A :=
  match x with Some _ => x | None => y end.

End Js.

(** ** Error classes ([moleculer].Errors and the built-in ones)

    Only the prototype chain matters to the adapter, which tests errors
    with [instanceof]. *)

Module Errors.

Inductive ErrorClass :=
| Error
| TypeError
| CustomError (name : string)   (* a class of the application extending Error *)
| MoleculerError
| MoleculerRetryableError
| MoleculerClientError
| MoleculerServerError.

(** The class a class [extends] ([None] for the root [Error]). *)
Definition extends (c : ErrorClass) : option ErrorClass :=
  match c with
  | Error => None
  | TypeError => Some Error
  | CustomError _ => Some Error
  | MoleculerError => Some Error
  | MoleculerRetryableError => Some MoleculerError
  | MoleculerClientError => Some MoleculerError
  | MoleculerServerError => Some MoleculerRetryableError
  end.

Definition class_eqb (a b : ErrorClass) : bool :=
  match a, b with
  | Error, Error | TypeError, TypeError
  | MoleculerError, MoleculerError
  | MoleculerRetryableError, MoleculerRetryableError
  | MoleculerClientError, MoleculerClientError
  | MoleculerServerError, MoleculerServerError => true
  | CustomError x, CustomError y => String.eqb x y
  | _, _ => false
  end.

(** Walk up the prototype chain, at most [depth] links. *)
Fixpoint has_proto (depth : nat) (c target : ErrorClass) : bool :=
  class_eqb c target ||
  match depth with
  | O => false
  | S d => match extends c with
           | Some p => has_proto d p target
           | None => false
           end
  end.

(** A thrown error object. *)
Record JsError := new { err_class : ErrorClass; message : string }.

(** [err instanceof target]; no chain above is longer than three links. *)
Definition instanceof (err : JsError) (target : ErrorClass) : bool :=
  has_proto 3 (err_class err) target.

End Errors.
Export Errors.

(** ** Constants ([src/constants.js]) *)

Module C.
Definition HEADER_REDELIVERED_COUNT := "x-redelivered-count".
Definition HEADER_GROUP := "x-group".
Definition HEADER_DEAD_LETTER := "x-death".
Definition HEADER_ORIGINAL_CHANNEL := "x-original-channel".
Definition HEADER_ORIGINAL_GROUP := "x-original-group".
Definition HEADER_ERROR_MESSAGE := "x-error-message".
Definition METRIC_CHANNELS_MESSAGES_ERRORS_TOTAL :=
  "moleculer.channels.messages.errors.total".
Definition METRIC_CHANNELS_MESSAGES_RETRIES_TOTAL :=
  "moleculer.channels.messages.retries.total".
Definition METRIC_CHANNELS_MESSAGES_DEAD_LETTERING_TOTAL :=
  "moleculer.channels.messages.deadLettering.total".
Definition DEFAULT_PUBLISH_TIMEOUT : Z := 10000.
End C.

(** ** Data model *)

(** A [Buffer]: the bytes of a message body. *)
Definition Buffer := string.

(** A JavaScript value handed to [publish] or produced by the serializer. *)
Inductive Value :=
| VUndefined
| VBool (b : bool)
| VNumber (n : Z)
| VString (s : string)
| VBuffer (b : Buffer)
| VObject (json : string).

(** One entry of the broker's [x-death] array. *)
Record Death := { count : Z; queue : string; reason : string }.

(** A header value as the adapter meets it. *)
Inductive HeaderValue :=
| HUndefined
| HString (s : string)
| HNumber (n : Z)
| HDeaths (entries : list Death).

Abbreviation Headers := (gmap string HeaderValue).

Record Fields := { consumerTag : string; deliveryTag : Z }.

Record Properties := {
  correlationId : option string;
  headers : option Headers
}.

(** A message as delivered by [amqplib] to a consumer callback. *)
Record Message := {
  content : Buffer;
  fields : Fields;
  properties : option Properties
}.

(** Opaque option bags of [amqplib] (exchange and consumer options). *)
Abbreviation Bag := (gmap string string).

(** Options of [assertQueue]. *)
Record QueueOptions := {
  arguments : option Bag;
  deadLetterExchange : option string;
  deadLetterRoutingKey : option string;
  messageTtl : option Z;
  other : Bag
}.

(** Options of [channel.publish]. *)
Record MessageOptions := {
  mo_persistent : option bool;
  mo_expiration : option Z;
  mo_priority : option Z;
  mo_correlationId : option string;
  mo_headers : option Headers;
  mo_timeout : option Z
}.

Record PublishAssertExchange := {
  pae_enabled : option bool;
  pae_exchangeOptions : option Bag
}.

(** The [opts] argument of [publish]. *)
Record PublishOpts := {
  persistent : option bool;
  ttl : option Z;
  priority : option Z;
  po_correlationId : option string;
  po_headers : option Headers;
  timeout : option Z;
  raw : bool;
  routingKey : option string;
  publishAssertExchange : option PublishAssertExchange
}.

Record DeadLettering := {
  enabled : option bool;
  queueName : option string;
  exchangeName : option string
}.

Record ChannelAmqp := {
  ca_queueOptions : option QueueOptions;
  ca_exchangeOptions : option Bag;
  ca_consumerOptions : option Bag
}.

(** What a call of the channel's handler, or of the serializer, does. *)
Inductive Completion (A : Type) :=
| Return (a : A)
| Throw (err : JsError)
| Pending.   (* the promise never settles *)
Arguments Return {A} a.
Arguments Throw {A} err.
Arguments Pending {A}.

(** A channel definition.  The object is shared by reference between the
    caller, the subscription table and the consumer callback; [subscribe],
    which mutates it, returns its new value, which is the one to pass on. *)
Record Channel := {
  id : string;
  name : string;
  group : option string;
  handler : Value -> Message -> Completion unit;
  maxRetries : option Z;
  deadLettering : option DeadLettering;
  amqp : option ChannelAmqp;
  unsubscribing : bool
}.

Record Serializer := {
  serialize : Value -> Completion Buffer;
  deserialize : Buffer -> Completion Value
}.

Record AmqpOptions := {
  url : option (list string);   (* the array left by the constructor *)
  queueOptions : QueueOptions;
  exchangeOptions : Bag;
  messageOptions : MessageOptions;
  consumerOptions : Bag;
  ao_publishAssertExchange : option PublishAssertExchange
}.

(** [this.opts]. *)
Record Options := {
  maxInFlight : option Z;
  opt_maxRetries : option Z;
  retryInterval : option Z;
  opt_deadLettering : option DeadLettering;
  opt_amqp : AmqpOptions
}.

Inductive LogLevel := debug | info | warn | error.

(** Calls to the external collaborators, in program order. *)
Inductive Event :=
| Log (level : LogLevel) (text : string)
| MetricsIncrement (metric : string) (chanId : string)
| AddActive (chanId : string) (ids : list string)
| RemoveActive (chanId : string) (ids : list string)
| Deserialize (body : Buffer)
| Serialize (payload : Value)
| CallHandler (chanId : string) (body : Value) (msg : Message)
| Ack (msg : Message)
| Nack (msg : Message) (allUpTo requeue : bool)
| Publish (exchange : string) (routing : option string) (body : Value)
    (options : MessageOptions)
| AssertExchange (exchange kind : string) (options : Bag)
| AssertQueue (qname : option string) (options : QueueOptions)
| BindQueue (qname : option string) (source pattern : string)
| Consume (qname : string) (options : Bag)
| Connect (uri : option string)
| CreateChannel
| Prefetch (n : Z)
| SetTimeout (ms : Z).

Record Subscription := { chan : Channel; sub_consumerTag : string }.

(** An event-loop turn after which a timer set by [poll] fires: [ready] is
    the value at which the callbacks that ran meanwhile (the channel's
    "drain" listener, other publishes) left [writeBufferReady], and [now]
    is what [Date.now()] reads when [checkCondition] runs again. *)
Record Turn := { ready : bool; now : Z }.

(** The clock as [poll] reads it: at entry, at the first (synchronous) run
    of [checkCondition], and at each later run. *)
Record Schedule := { started : Z; firstCheck : Z; turns : list Turn }.

(** What the world answers to one [publish] call. *)
Record World := {
  schedule : Schedule;
  assertExchangeSettles : Completion unit;
  publishReturns : Completion bool
}.

(** The mutable fields of the adapter object. *)
Record Adapter := {
  opts : Options;
  serializer : Serializer;
  (* Modelled from the spec: [addPrefixTopic] of the base adapter (absent
     from the sources) resolves a queue or exchange name by prefixing it;
     the argument may be [undefined]. *)
  addPrefixTopic : option string -> option string;
  stopping : bool;
  connected : bool;
  connectAttempt : Z;
  connectionCount : Z;
  assertedExchanges : gset string;
  writeBufferReady : bool;
  subscriptions : list (string * Subscription);   (* a Map, insertion order *)
  activeMessages : gmap string (gset string)
}.

(** ** Effects

    A computation reads and updates the adapter, emits events and either
    returns, throws, or never settles. *)

Definition Eff (A : Type) : Type :=
  Adapter -> Completion A * Adapter * list Event.

Definition ret {A} (a : A) : Eff A := fun s => (Return a, s, []).

Definition throw {A} (err : JsError) : Eff A := fun s => (Throw err, s, []).

Definition bind {A B} (m : Eff A) (k : A -> Eff B) : Eff B :=
  fun s =>
    match m s with
    | (Return a, s1, w1) => let '(r, s2, w2) := k a s1 in (r, s2, w1 ++ w2)
    | (Throw err, s1, w1) => (Throw err, s1, w1)
    | (Pending, s1, w1) => (Pending, s1, w1)
    end.

#[global] Instance Eff_ret : MRet Eff := @ret.
#[global] Instance Eff_bind : MBind Eff := fun A B k m => bind m k.

(** [try { m } catch (err) { h err }]. *)
Definition tryCatch {A} (m : Eff A) (h : JsError -> Eff A) : Eff A :=
  fun s =>
    match m s with
    | (Throw err, s1, w1) => let '(r, s2, w2) := h err s1 in (r, s2, w1 ++ w2)
    | other => other
    end.

Definition emit (e : Event) : Eff unit := fun s => (Return tt, s, [e]).

Definition get : Eff Adapter := fun s => (Return s, s, []).

Definition modify (f : Adapter -> Adapter) : Eff unit :=
  fun s => (Return tt, f s, []).

(** The answer of a collaborator, as a computation. *)
Definition lift {A} (c : Completion A) : Eff A := fun s => (c, s, []).

Definition when (b : bool) (m : Eff unit) : Eff unit :=
  if b then m else ret tt.

(** The result, final adapter and events of running [m] from [s]. *)
Definition result {A} (m : Eff A) (s : Adapter) : Completion A := (m s).1.1.
Definition final {A} (m : Eff A) (s : Adapter) : Adapter := (m s).1.2.
Definition events {A} (m : Eff A) (s : Adapter) : list Event := (m s).2.

Definition logger (level : LogLevel) (text : string) : Eff unit :=
  emit (Log level text).

Definition set_writeBufferReady (b : bool) (s : Adapter) : Adapter :=
  {| opts := opts s; serializer := serializer s;
     addPrefixTopic := addPrefixTopic s; stopping := stopping s;
     connected := connected s; connectAttempt := connectAttempt s;
     connectionCount := connectionCount s;
     assertedExchanges := assertedExchanges s; writeBufferReady := b;
     subscriptions := subscriptions s; activeMessages := activeMessages s |}.

Definition set_assertedExchanges (x : gset string) (s : Adapter) : Adapter :=
  {| opts := opts s; serializer := serializer s;
     addPrefixTopic := addPrefixTopic s; stopping := stopping s;
     connected := connected s; connectAttempt := connectAttempt s;
     connectionCount := connectionCount s;
     assertedExchanges := x; writeBufferReady := writeBufferReady s;
     subscriptions := subscriptions s; activeMessages := activeMessages s |}.

Definition set_stopping (b : bool) (s : Adapter) : Adapter :=
  {| opts := opts s; serializer := serializer s;
     addPrefixTopic := addPrefixTopic s; stopping := b;
     connected := connected s; connectAttempt := connectAttempt s;
     connectionCount := connectionCount s;
     assertedExchanges := assertedExchanges s;
     writeBufferReady := writeBufferReady s;
     subscriptions := subscriptions s; activeMessages := activeMessages s |}.

Definition set_connected (b : bool) (s : Adapter) : Adapter :=
  {| opts := opts s; serializer := serializer s;
     addPrefixTopic := addPrefixTopic s; stopping := stopping s;
     connected := b; connectAttempt := connectAttempt s;
     connectionCount := connectionCount s;
     assertedExchanges := assertedExchanges s;
     writeBufferReady := writeBufferReady s;
     subscriptions := subscriptions s; activeMessages := activeMessages s |}.

Definition set_connectionCount (n : Z) (s : Adapter) : Adapter :=
  {| opts := opts s; serializer := serializer s;
     addPrefixTopic := addPrefixTopic s; stopping := stopping s;
     connected := connected s; connectAttempt := connectAttempt s;
     connectionCount := n;
     assertedExchanges := assertedExchanges s;
     writeBufferReady := writeBufferReady s;
     subscriptions := subscriptions s; activeMessages := activeMessages s |}.

Definition set_connectAttempt (n : Z) (s : Adapter) : Adapter :=
  {| opts := opts s; serializer := serializer s;
     addPrefixTopic := addPrefixTopic s; stopping := stopping s;
     connected := connected s; connectAttempt := n;
     connectionCount := connectionCount s;
     assertedExchanges := assertedExchanges s;
     writeBufferReady := writeBufferReady s;
     subscriptions := subscriptions s; activeMessages := activeMessages s |}.

Definition set_subscriptions (m : list (string * Subscription)) (s : Adapter)
  : Adapter :=
  {| opts := opts s; serializer := serializer s;
     addPrefixTopic := addPrefixTopic s; stopping := stopping s;
     connected := connected s; connectAttempt := connectAttempt s;
     connectionCount := connectionCount s;
     assertedExchanges := assertedExchanges s;
     writeBufferReady := writeBufferReady s;
     subscriptions := m; activeMessages := activeMessages s |}.

Definition set_activeMessages (m : gmap string (gset string)) (s : Adapter)
  : Adapter :=
  {| opts := opts s; serializer := serializer s;
     addPrefixTopic := addPrefixTopic s; stopping := stopping s;
     connected := connected s; connectAttempt := connectAttempt s;
     connectionCount := connectionCount s;
     assertedExchanges := assertedExchanges s;
     writeBufferReady := writeBufferReady s;
     subscriptions := subscriptions s; activeMessages := m |}.

(** ** The base adapter

    [src/adapters/base.js] is not among the sources; what the AMQP adapter
    inherits from it is modelled here. *)

(** Modelled from the spec: [metricsIncrement] of the base adapter (absent
    from the sources) emits a counter event to the metrics sink. *)
Definition metricsIncrement (metric : string) (chan : Channel) : Eff unit :=
  emit (MetricsIncrement metric (id chan)).

(** Modelled from the spec: [initChannelActiveMessages] of the base adapter
    (absent from the sources) starts tracking a channel, with an empty set
    of in-flight message ids unless the channel is tracked already. *)
Definition initChannelActiveMessages (channelID : string) : Eff unit :=
  modify (fun s =>
    match activeMessages s !! channelID with
    | Some _ => s
    | None => set_activeMessages (<[channelID := ∅]> (activeMessages s)) s
    end).

(** Modelled from the spec: [addChannelActiveMessages] of the base adapter
    (absent from the sources) registers message ids in the set of the
    channel ("mapping from channel id to a set of message identifiers
    currently being processed").  The call is recorded as an event. *)
Definition addChannelActiveMessages (channelID : string) (IDs : list string)
  : Eff unit :=
  emit (AddActive channelID IDs);;
  modify (fun s =>
    set_activeMessages
      (<[channelID := list_to_set IDs ∪ default ∅ (activeMessages s !! channelID)]>
         (activeMessages s)) s).

(** Modelled from the spec: [removeChannelActiveMessages] of the base
    adapter (absent from the sources) deregisters message ids from the set
    of the channel.  The call is recorded as an event. *)
Definition removeChannelActiveMessages (channelID : string) (IDs : list string)
  : Eff unit :=
  emit (RemoveActive channelID IDs);;
  modify (fun s =>
    set_activeMessages
      (alter (fun ids => ids ∖ list_to_set IDs) channelID (activeMessages s)) s).

(** ** The [amqplib] channel: calls are recorded. *)

Definition channel_ack (msg : Message) : Eff unit := emit (Ack msg).

Definition channel_nack (msg : Message) (allUpTo requeue : bool) : Eff unit :=
  emit (Nack msg allUpTo requeue).

(** ** [moveToDeadLetter] *)

(** [chan.deadLettering.<prop>]: reading a property of [undefined] throws. *)
Definition deadLetteringOf (chan : Channel) : Completion DeadLettering :=
  match deadLettering chan with
  | Some dl => Return dl
  | None => Throw (new TypeError "Cannot read properties of undefined")
  end.

(** [msg.properties && msg.properties.headers ? msg.properties.headers : {}] *)
Definition headersOrEmpty (msg : Message) : Headers :=
  match properties msg with
  | Some p => match headers p with Some h => h | None => ∅ end
  | None => ∅
  end.

Definition optString (o : option string) : HeaderValue :=
  match o with Some s => HString s | None => HUndefined end.

(** The object literal of the dead-letter headers: the three provenance
    keys first, then the spread of the message's own headers, which
    overrides keys written before it. *)
Definition deadLetterHeaders (chan : Channel) (msg : Message) (err : JsError)
  : Headers :=
  headersOrEmpty msg ∪
  <[C.HEADER_ERROR_MESSAGE := HString (message err)]>
    (<[C.HEADER_ORIGINAL_GROUP := optString (group chan)]>
       (<[C.HEADER_ORIGINAL_CHANNEL := HString (name chan)]> ∅)).

Definition onlyHeaders (h : Headers) : MessageOptions :=
  {| mo_persistent := None; mo_expiration := None; mo_priority := None;
     mo_correlationId := None; mo_headers := Some h; mo_timeout := None |}.

Definition moveToDeadLetter (chan : Channel) (msg : Message) (err : JsError)
  : Eff unit :=
  dl ← lift (deadLetteringOf chan);
  emit (Publish (Js.or_str (exchangeName dl) "") (queueName dl)
          (VBuffer (content msg))
          (onlyHeaders (deadLetterHeaders chan msg err)));;
  metricsIncrement C.METRIC_CHANNELS_MESSAGES_DEAD_LETTERING_TOTAL chan;;
  channel_ack msg.

(** ** [createConsumerHandler] *)

(** [msg.properties.correlationId || `${consumerTag}:${deliveryTag}`] *)
Definition messageId (msg : Message) : Completion string :=
  match properties msg with
  | None => Throw (new TypeError "Cannot read properties of undefined")
  | Some p =>
      Return (Js.or_str (correlationId p)
                (consumerTag (fields msg) +:+ ":" +:+
                 pretty (deliveryTag (fields msg))))
  end.

(** [msg.properties.headers[C.HEADER_DEAD_LETTER]] *)
Definition xDeathOf (msg : Message) : Completion (option HeaderValue) :=
  match properties msg with
  | None => Throw (new TypeError "Cannot read properties of undefined")
  | Some p =>
      match headers p with
      | None => Throw (new TypeError "Cannot read properties of undefined")
      | Some h => Return (h !! C.HEADER_DEAD_LETTER)
      end
  end.

(** [xDeath ? xDeath[0].count : 0] *)
Definition firstCount (xDeath : option HeaderValue) : Completion Js.Num :=
  match xDeath with
  | None | Some HUndefined => Return (Js.Int 0)
  | Some (HString s) =>
      if Js.truthy_str s then Return Js.NaN   (* a character has no count *)
      else Return (Js.Int 0)
  | Some (HNumber n) =>
      if n =? 0 then Return (Js.Int 0)
      else Throw (new TypeError "Cannot read properties of undefined")
  | Some (HDeaths []) =>
      Throw (new TypeError "Cannot read properties of undefined")
  | Some (HDeaths (d :: _)) => Return (Js.Int (count d))
  end.

(** The callback that [createConsumerHandler(chan)] returns, applied to a
    delivered message. *)
Definition createConsumerHandler (chan : Channel) (msg : Message) : Eff unit :=
  if unsubscribing chan then ret tt
  else
    logger debug
      ("AMQP message received in '" +:+ name chan +:+ "' queue. Processing...");;
    msgId ← lift (messageId msg);
    tryCatch
      (addChannelActiveMessages (id chan) [msgId];;
       emit (Deserialize (content msg));;
       content ← (s ← get; lift (deserialize (serializer s) (content msg)));
       emit (CallHandler (id chan) content msg);;
       lift (handler chan content msg);;
       channel_ack msg;;
       removeChannelActiveMessages (id chan) [msgId])
      (fun err =>
         removeChannelActiveMessages (id chan) [msgId];;
         metricsIncrement C.METRIC_CHANNELS_MESSAGES_ERRORS_TOTAL chan;;
         if instanceof err MoleculerError
            && negb (instanceof err MoleculerRetryableError)
         then
           dl ← lift (deadLetteringOf chan);
           if Js.truthy_bool (enabled dl) then
             logger error
               ("Internal error in processing message in '" +:+ name chan +:+
                "' queue, moving message to '" +:+ Js.interp (queueName dl) +:+
                "' queue...");;
             moveToDeadLetter chan msg err
           else
             logger error
               ("Internal error in processing message in '" +:+ name chan +:+
                "' queue, dropping message...");;
             channel_ack msg
         else
           logger warn
             ("AMQP message processing error in '" +:+ name chan +:+ "' queue.");;
           if negb (Js.truthy_num (maxRetries chan)) then
             dl ← lift (deadLetteringOf chan);
             if Js.truthy_bool (enabled dl) then
               logger debug
                 ("No retries, moving message to '" +:+
                  Js.interp (queueName dl) +:+ "' queue...");;
               moveToDeadLetter chan msg err
             else
               logger error "No retries, drop message...";;
               channel_ack msg
           else
             xDeath ← lift (xDeathOf msg);
             redeliveryCount ← lift (firstCount xDeath);
             let redeliveryCount := Js.incr redeliveryCount in
             if Js.gt0 (maxRetries chan)
                && Js.geq redeliveryCount (maxRetries chan)
             then
               dl ← lift (deadLetteringOf chan);
               if Js.truthy_bool (enabled dl) then
                 logger warn
                   ("Message redelivered too many times (" +:+
                    Js.show redeliveryCount +:+ "). Moving message to '" +:+
                    Js.interp (queueName dl) +:+ "' queue...");;
                 moveToDeadLetter chan msg err
               else
                 logger error
                   ("Message redelivered too many times (" +:+
                    Js.show redeliveryCount +:+ "). Drop message...");;
                 channel_ack msg
             else
               let queueName := Js.interp (group chan) +:+ "." +:+ name chan in
               logger warn
                 ("Requeue message into '" +:+ queueName +:+ ".retry' queue.");;
               metricsIncrement C.METRIC_CHANNELS_MESSAGES_RETRIES_TOTAL chan;;
               channel_nack msg false false).

(** ** [poll] ([src/utils.js]) *)

(** One run of [checkCondition]; [clock] is what [Date.now()] reads in this
    run.  When the schedule has no further turn the timer never fires and
    the promise stays pending. *)
Fixpoint checkCondition (fn : Eff bool) (endTime interval clock : Z)
    (later : list Turn) : Eff unit :=
  result ← fn;
  if (result : bool) then ret tt
  else if clock <? endTime then
    emit (SetTimeout interval);;
    match later with
    | [] => lift Pending
    | t :: rest =>
        modify (set_writeBufferReady (ready t));;
        checkCondition fn endTime interval (now t) rest
    end
  else throw (new Error "timed out").

(** [endTime]: [now + (timeout || 2000)]. *)
Definition endTimeOf (timeout : option Z) (sched : Schedule) : Z :=
  let now := started sched in
  now + (if Js.truthy_num timeout then default 0 timeout else 2000).

Definition poll (fn : Eff bool) (timeout interval : option Z)
    (sched : Schedule) : Eff unit :=
  let endTime := endTimeOf timeout sched in
  let interval := if Js.truthy_num interval then default 0 interval else 1 in
  checkCondition fn endTime interval (firstCheck sched) (turns sched).

(** ** [subscribe] *)

(** [_.defaultsDeep({}, a, b)] on option bags. *)
Definition defaultsDeep_bag (a : option Bag) (b : Bag) : Bag :=
  default ∅ a ∪ b.

Definition defaultsDeep_arguments (a b : option Bag) : option Bag :=
  match a, b with
  | Some x, Some y => Some (x ∪ y)
  | _, _ => Js.dflt a b
  end.

Definition defaultsDeep_queueOptions (a : option QueueOptions)
    (b : QueueOptions) : QueueOptions :=
  match a with
  | None => b
  | Some a =>
      {| arguments := defaultsDeep_arguments (arguments a) (arguments b);
         deadLetterExchange :=
           Js.dflt (deadLetterExchange a) (deadLetterExchange b);
         deadLetterRoutingKey :=
           Js.dflt (deadLetterRoutingKey a) (deadLetterRoutingKey b);
         messageTtl := Js.dflt (messageTtl a) (messageTtl b);
         other := other a ∪ other b |}
  end.

Definition defaultsDeep_deadLettering (a b : option DeadLettering)
  : DeadLettering :=
  let e := {| enabled := None; queueName := None; exchangeName := None |} in
  let a := default e a in
  let b := default e b in
  {| enabled := Js.dflt (enabled a) (enabled b);
     queueName := Js.dflt (queueName a) (queueName b);
     exchangeName := Js.dflt (exchangeName a) (exchangeName b) |}.

Definition set_arguments (x : Bag) (q : QueueOptions) : QueueOptions :=
  {| arguments := Some x; deadLetterExchange := deadLetterExchange q;
     deadLetterRoutingKey := deadLetterRoutingKey q;
     messageTtl := messageTtl q; other := other q |}.

Definition set_deadLettering (dl : DeadLettering) (c : Channel) : Channel :=
  {| id := id c; name := name c; group := group c; handler := handler c;
     maxRetries := maxRetries c; deadLettering := Some dl; amqp := amqp c;
     unsubscribing := unsubscribing c |}.

Definition set_maxRetries (n : option Z) (c : Channel) : Channel :=
  {| id := id c; name := name c; group := group c; handler := handler c;
     maxRetries := n; deadLettering := deadLettering c; amqp := amqp c;
     unsubscribing := unsubscribing c |}.

(** [this.subscriptions.set(key, value)]: a present key keeps its place. *)
Fixpoint map_set (key : string) (value : Subscription)
    (m : list (string * Subscription)) : list (string * Subscription) :=
  match m with
  | [] => [(key, value)]
  | (k, v) :: rest =>
      if String.eqb k key then (k, value) :: rest
      else (k, v) :: map_set key value rest
  end.

(** The constants [queueName], [retryExchangeName] and [retryQueueName] of
    [subscribe], as functions of the channel (whose name and group the call
    does not change). *)
Definition queueNameOf (chan : Channel) : string :=
  if Js.truthy_ostr (group chan)
  then Js.interp (group chan) +:+ "." +:+ name chan
  else name chan.

Definition retryExchangeNameOf (chan : Channel) : string :=
  if Js.truthy_ostr (group chan)
  then Js.interp (group chan) +:+ ".retry"
  else queueNameOf chan +:+ ".retry".

Definition retryQueueNameOf (chan : Channel) : string :=
  queueNameOf chan +:+ ".retry".

(** [{...queueOptions, ...(chan.maxRetries > 0 ? {deadLetterExchange,
    deadLetterRoutingKey} : {})}] *)
Definition mainQueueOptionsOf (chan : Channel) (queueOptions : QueueOptions)
  : QueueOptions :=
  if Js.gt0 (maxRetries chan) then
    {| arguments := arguments queueOptions;
       deadLetterExchange := Some (retryExchangeNameOf chan);
       deadLetterRoutingKey := Some (retryQueueNameOf chan);
       messageTtl := messageTtl queueOptions; other := other queueOptions |}
  else queueOptions.

(** [exchangeOptions], [queueOptions] (before the queue type is forced) and
    [consumerOptions] of [subscribe]: the channel's options over the
    adapter's. *)
Definition exchangeOptionsOf (chan : Channel) (s : Adapter) : Bag :=
  defaultsDeep_bag
    (match amqp chan with Some a => ca_exchangeOptions a | None => Some ∅ end)
    (exchangeOptions (opt_amqp (opts s))).

Definition queueOptionsOf (chan : Channel) (s : Adapter) : QueueOptions :=
  defaultsDeep_queueOptions
    (match amqp chan with Some a => ca_queueOptions a | None => None end)
    (queueOptions (opt_amqp (opts s))).

Definition consumerOptionsOf (chan : Channel) (s : Adapter) : Bag :=
  defaultsDeep_bag
    (match amqp chan with Some a => ca_consumerOptions a | None => Some ∅ end)
    (consumerOptions (opt_amqp (opts s))).

(** [queueOptions.arguments["x-queue-type"]] *)
Definition queueTypeOf (queueOptions : QueueOptions) : option string :=
  default ∅ (arguments queueOptions) !! "x-queue-type".

(** [queueOptions.arguments = {...queueOptions.arguments, "x-queue-type":
    "quorum"}] *)
Definition enforceQuorum (queueOptions : QueueOptions) : QueueOptions :=
  set_arguments
    (<["x-queue-type" := "quorum"]> (default ∅ (arguments queueOptions)))
    queueOptions.

(** The dead-lettering configuration with its names resolved:
    [addPrefixTopic] on the queue name and on the exchange name, which
    is ["DEAD_LETTER"] when none is configured. *)
Definition resolveDeadLettering (dl : DeadLettering) (s : Adapter)
  : DeadLettering :=
  {| enabled := enabled dl;
     queueName := addPrefixTopic s (queueName dl);
     exchangeName :=
       addPrefixTopic s
         (if Js.truthy_ostr (exchangeName dl) then exchangeName dl
          else Some "DEAD_LETTER") |}.

(** [{...queueOptions, deadLetterExchange: chan.name, deadLetterRoutingKey:
    queueName, messageTtl: this.opts.retryInterval || 0}] *)
Definition retryQueueOptionsOf (chan : Channel) (s : Adapter)
    (queueOptions : QueueOptions) : QueueOptions :=
  {| arguments := arguments queueOptions;
     deadLetterExchange := Some (name chan);
     deadLetterRoutingKey := Some (queueNameOf chan);
     messageTtl :=
       Some (if Js.truthy_num (retryInterval (opts s))
             then default 0 (retryInterval (opts s)) else 0);
     other := other queueOptions |}.

(** [if (chan.maxRetries == null) chan.maxRetries = this.opts.maxRetries] *)
Definition defaultMaxRetries (chan : Channel) (s : Adapter) : Channel :=
  match maxRetries chan with
  | None => set_maxRetries (opt_maxRetries (opts s)) chan
  | Some _ => chan
  end.

(** [subscribe(chan)]; [tag] is the consumer tag that [consume] answers.
    The awaited broker calls are taken to settle.  Returns the channel
    object as the call leaves it. *)
Definition subscribe (chan : Channel) (tag : string) : Eff Channel :=
  logger debug
    ("Subscribing to '" +:+ name chan +:+ "' chan with '" +:+
     Js.interp (group chan) +:+ "' group...'");;
  s ← get;
  let exchangeOptions := exchangeOptionsOf chan s in
  let queueOptions := queueOptionsOf chan s in
  when (Js.truthy_ostr (queueTypeOf queueOptions)
        && negb (String.eqb (default "" (queueTypeOf queueOptions)) "quorum"))
    (logger warn
       ("x-queue-type set to: " +:+ default "" (queueTypeOf queueOptions) +:+
        "; overriding to 'quorum'"));;
  let queueOptions := enforceQuorum queueOptions in
  let chan :=
    set_deadLettering
      (defaultsDeep_deadLettering (deadLettering chan)
         (opt_deadLettering (opts s))) chan in
  tryCatch
    (let chan := defaultMaxRetries chan s in
     dl ← lift (deadLetteringOf chan);
     chan ←
       (if Js.truthy_bool (enabled dl) then
          let dl := resolveDeadLettering dl s in
          let chan := set_deadLettering dl chan in
          logger debug
            ("Asserting queue '" +:+ Js.interp (queueName dl) +:+ "'");;
          emit (AssertQueue (queueName dl) queueOptions);;
          when (Js.truthy_ostr (exchangeName dl))
            (logger debug
               ("Asserting exchange " +:+ Js.interp (exchangeName dl));;
             modify (fun s =>
               set_assertedExchanges
                 ({[Js.interp (exchangeName dl)]} ∪ assertedExchanges s) s);;
             emit (AssertExchange (Js.interp (exchangeName dl)) "fanout"
                     exchangeOptions);;
             logger debug
               ("Binding '" +:+ Js.interp (exchangeName dl) +:+ "' -> '" +:+
                Js.interp (queueName dl) +:+ "'...");;
             emit (BindQueue (queueName dl) (Js.interp (exchangeName dl)) ""));;
          ret chan
        else ret chan);
     logger debug ("Asserting '" +:+ name chan +:+ "' fanout exchange...");;
     emit (AssertExchange (name chan) "fanout" exchangeOptions);;
     let mainQueueOptions := mainQueueOptionsOf chan queueOptions in
     logger debug ("Asserting '" +:+ queueNameOf chan +:+ "' queue...");;
     emit (AssertQueue (Some (queueNameOf chan)) mainQueueOptions);;
     logger debug
       ("Binding '" +:+ name chan +:+ "' -> '" +:+ queueNameOf chan +:+
        "'...");;
     emit (BindQueue (Some (queueNameOf chan)) (name chan) "");;
     when (Js.gt0 (maxRetries chan))
       (logger debug
          ("Asserting '" +:+ retryExchangeNameOf chan +:+
           "' direct exchange...");;
        emit (AssertExchange (retryExchangeNameOf chan) "direct"
                exchangeOptions);;
        let retryQueueOptions := retryQueueOptionsOf chan s queueOptions in
        logger debug
          ("Asserting '" +:+ retryQueueNameOf chan +:+ "' queue...");;
        emit (AssertQueue (Some (retryQueueNameOf chan)) retryQueueOptions);;
        logger debug
          ("Binding '" +:+ retryExchangeNameOf chan +:+ "' -> '" +:+
           retryQueueNameOf chan +:+ "'...");;
        emit (BindQueue (Some (retryQueueNameOf chan))
                (retryExchangeNameOf chan) (retryQueueNameOf chan)));;
     let consumerOptions := consumerOptionsOf chan s in
     initChannelActiveMessages (id chan);;
     logger debug ("Consuming '" +:+ queueNameOf chan +:+ "' queue...");;
     emit (Consume (queueNameOf chan) consumerOptions);;
     modify (fun s =>
       set_subscriptions
         (map_set (id chan) {| chan := chan; sub_consumerTag := tag |}
            (subscriptions s)) s);;
     ret chan)
    (fun err =>
       logger error
         ("Error while subscribing to '" +:+ name chan +:+
          "' chan with '" +:+ Js.interp (group chan) +:+ "' group");;
       throw err).

(** ** Connecting *)

Fixpoint resubscribeEach (subs : list (string * Subscription))
    (tagOf : string -> string) : Eff unit :=
  match subs with
  | [] => ret tt
  | (_, sub) :: rest =>
      subscribe (chan sub) (tagOf (id (chan sub)));;
      resubscribeEach rest tagOf
  end.

(** [resubscribeAllChannels()]; [tagOf] gives the consumer tag the broker
    answers for each channel id. *)
Definition resubscribeAllChannels (tagOf : string -> string) : Eff unit :=
  logger info "Resubscribing to all channels...";;
  s ← get;
  resubscribeEach (subscriptions s) tagOf.

(** The listener of the channel's "drain" event, registered by [tryConnect]. *)
Definition onDrain : Eff unit :=
  logger info "AMQP channel is drained.";;
  modify (set_writeBufferReady true).

(** [tryConnect()]; [connectSettles] is the outcome of [Amqplib.connect].
    The registration of the listeners and the high-water-mark workaround
    leave no trace in the adapter's fields and are not shown. *)
Definition tryConnect (connectSettles : Completion unit)
    (tagOf : string -> string) : Eff unit :=
  s ← get;
  uri ←
    match url (opt_amqp (opts s)) with
    | Some uri =>
        modify (set_connectAttempt (connectAttempt s + 1));;
        s ← get;
        let urlIndex :=
          Js.rem (connectAttempt s - 1) (Z.of_nat (length uri)) in
        ret (Js.at_ uri urlIndex)
    | None => ret None
    end;
  logger debug "Connecting to AMQP server...";;
  emit (Connect uri);;
  lift connectSettles;;
  modify (set_connected true);;
  logger info "AMQP is connected.";;
  logger debug "Creating AMQP channel...";;
  emit CreateChannel;;
  s ← get;
  match maxInFlight (opts s) with
  | Some n => emit (Prefetch n)
  | None => ret tt
  end;;
  logger info "AMQP channel created.";;
  modify (fun s => set_connectionCount (connectionCount s + 1) s);;
  s ← get;
  let isReconnect := 1 <? connectionCount s in
  when isReconnect (resubscribeAllChannels tagOf).

(** [connect()]: one [tryConnect] per element of [answers], two seconds
    apart, until one succeeds. *)
Fixpoint connect (answers : list (Completion unit))
    (tagOf : string -> string) : Eff unit :=
  match answers with
  | [] => lift Pending
  | a :: rest =>
      tryCatch (tryConnect a tagOf)
        (fun err =>
           logger error "Unable to connect AMQP server.";;
           emit (SetTimeout 2000);;
           logger info "Reconnecting...";;
           connect rest tagOf)
  end.

(** ** [publish] *)

Definition isWriteBufferReady : Eff bool :=
  s ← get; ret (writeBufferReady s).

Definition defaultsDeep_headers (a b : option Headers) : option Headers :=
  match a, b with
  | Some x, Some y => Some (x ∪ y)
  | _, _ => Js.dflt a b
  end.

Definition defaultsDeep_messageOptions (a b : MessageOptions)
  : MessageOptions :=
  {| mo_persistent := Js.dflt (mo_persistent a) (mo_persistent b);
     mo_expiration := Js.dflt (mo_expiration a) (mo_expiration b);
     mo_priority := Js.dflt (mo_priority a) (mo_priority b);
     mo_correlationId := Js.dflt (mo_correlationId a) (mo_correlationId b);
     mo_headers := defaultsDeep_headers (mo_headers a) (mo_headers b);
     mo_timeout := Js.dflt (mo_timeout a) (mo_timeout b) |}.

(** [_.defaultsDeep(opts.publishAssertExchange,
    this.opts.amqp.publishAssertExchange, {enabled: false,
    exchangeOptions: {}})] *)
Definition defaultsDeep_publishAssertExchange
    (a b : option PublishAssertExchange) : bool * Bag :=
  let e := {| pae_enabled := None; pae_exchangeOptions := None |} in
  let a := default e a in
  let b := default e b in
  (default false (Js.dflt (pae_enabled a) (pae_enabled b)),
   default ∅ (pae_exchangeOptions a) ∪ default ∅ (pae_exchangeOptions b)).

(** [this.channel.publish(...)]: the call is recorded; it returns the
    back-pressure flag or throws. *)
Definition channel_publish (exchange : string) (routing : option string)
    (body : Value) (options : MessageOptions) (answer : Completion bool)
  : Eff bool :=
  emit (Publish exchange routing body options);;
  lift answer.

(** The [messageOptions] of [publish]: the options of the call over the
    adapter's. *)
Definition messageOptionsOf (options : PublishOpts) (s : Adapter)
  : MessageOptions :=
  defaultsDeep_messageOptions
    {| mo_persistent := persistent options;
       mo_expiration := ttl options;
       mo_priority := priority options;
       mo_correlationId := po_correlationId options;
       mo_headers := po_headers options;
       mo_timeout := timeout options |}
    (messageOptions (opt_amqp (opts s))).

Definition publish (channelName : string) (payload : Value)
    (options : PublishOpts) (world : World) : Eff unit :=
  s ← get;
  if stopping s then ret tt
  else if negb (connected s) then
    throw (new MoleculerRetryableError
             "Adapter not yet connected. Skipping publishing.")
  else
    let messageOptions := messageOptionsOf options s in
    logger debug
      ("Publish a message to '" +:+
       (if Js.truthy_str channelName then channelName
        else Js.interp (routingKey options)) +:+ "' channel...");;
    data ←
      (if raw options then ret payload
       else
         emit (Serialize payload);;
         b ← lift (serialize (serializer s) payload);
         ret (VBuffer b));
    let publishAssertExchange :=
      defaultsDeep_publishAssertExchange (publishAssertExchange options)
        (ao_publishAssertExchange (opt_amqp (opts s))) in
    when (publishAssertExchange.1
          && negb (bool_decide (channelName ∈ assertedExchanges s)))
      (logger debug ("Asserting exchange " +:+ channelName);;
       modify (fun s =>
         set_assertedExchanges ({[channelName]} ∪ assertedExchanges s) s);;
       emit (AssertExchange channelName "fanout" publishAssertExchange.2);;
       lift (assertExchangeSettles world));;
    ready ← isWriteBufferReady;
    (if (ready : bool) then
       sent ← channel_publish channelName (Some (Js.or_str (routingKey options) ""))
                data messageOptions (publishReturns world);
       modify (set_writeBufferReady sent)
     else
       logger debug "polling write buffer...";;
       tryCatch
         (poll isWriteBufferReady (mo_timeout messageOptions) (Some 1)
            (schedule world);;
          sent ← channel_publish channelName
                   (Some (Js.or_str (routingKey options) "")) data messageOptions
                   (publishReturns world);
          modify (set_writeBufferReady sent))
         (fun err =>
            throw (new MoleculerError "AMQP publish error: write buffer full")));;
    logger debug ("Message was published at '" +:+ channelName +:+ "'").

(** ** The constructor *)

(** [_.defaultsDeep(this.opts, {maxInFlight: 1, amqp: {messageOptions:
    {timeout: C.DEFAULT_PUBLISH_TIMEOUT}, ...}})]; the other defaults are
    empty objects. *)
Definition withDefaults (o : Options) : Options :=
  {| maxInFlight := Js.dflt (maxInFlight o) (Some 1);
     opt_maxRetries := opt_maxRetries o;
     retryInterval := retryInterval o;
     opt_deadLettering := opt_deadLettering o;
     opt_amqp :=
       {| url := url (opt_amqp o);
          queueOptions := queueOptions (opt_amqp o);
          exchangeOptions := exchangeOptions (opt_amqp o);
          messageOptions :=
            defaultsDeep_messageOptions (messageOptions (opt_amqp o))
              {| mo_persistent := None; mo_expiration := None;
                 mo_priority := None; mo_correlationId := None;
                 mo_headers := None;
                 mo_timeout := Some C.DEFAULT_PUBLISH_TIMEOUT |};
          consumerOptions := consumerOptions (opt_amqp o);
          ao_publishAssertExchange := ao_publishAssertExchange (opt_amqp o) |} |}.

(** [new AmqpAdapter(opts)], with the serializer and the prefixing of the
    base adapter it is initialised with. *)
Definition AmqpAdapter (o : Options) (ser : Serializer)
    (prefix : option string -> option string) : Adapter :=
  {| opts := withDefaults o;
     serializer := ser;
     addPrefixTopic := prefix;
     stopping := false;
     connected := false;
     connectAttempt := 0;
     connectionCount := 0;
     assertedExchanges := ∅;
     writeBufferReady := true;
     subscriptions := [];
     activeMessages := ∅ |}.

(** ** Observations on event lists *)

(** The calls that settle or forward a message on the broker. *)
Definition isBrokerCall (e : Event) : bool :=
  match e with
  | Ack _ | Nack _ _ _ | Publish _ _ _ _ => true
  | _ => false
  end.

Definition brokerCalls (w : list Event) : list Event :=
  List.filter isBrokerCall w.

Definition isNack (e : Event) : bool :=
  match e with Nack _ _ _ => true | _ => false end.



(** The endpoints that [Amqplib.connect] was called with. *)
Definition connectedTo (w : list Event) : list (option string) :=
  omap (fun e => match e with Connect uri => Some uri | _ => None end) w.

(** Whether the consumer callback went through the branch of the errors
    that are not to be retried; both arms of that branch, and no other
    place, log an error starting with these words. *)
Definition tookNonRetryableBranch (w : list Event) : bool :=
  List.existsb
    (fun e =>
       match e with
       | Log error text =>
           String.prefix "Internal error in processing message" text
       | _ => false
       end) w.

(** The in-flight message ids of a channel. *)
Definition activeOf (channelID : string) (s : Adapter) : gset string :=
  default ∅ (activeMessages s !! channelID).

(** ** The broker's side of a retry

    The broker is an external collaborator; its part in the life of a
    failing message is modelled from the spec. *)

(** The count of the first entry of the death history, [0] without one. *)
Definition deathCount (msg : Message) : Z :=
  match headersOrEmpty msg !! C.HEADER_DEAD_LETTER with
  | Some (HDeaths (d :: _)) => count d
  | _ => 0
  end.

(** Modelled from the spec: a message rejected on the main queue is routed
    to the retry queue, expires there and comes back to the main queue with
    a new delivery tag and a death history whose count is one more than
    before ("number of times a message has been re-queued after failure,
    tracked via broker-native death metadata"). *)
Definition redelivered (chan : Channel) (msg : Message) : Message :=
  let n := deathCount msg + 1 in
  {| content := content msg;
     fields :=
       {| consumerTag := consumerTag (fields msg);
          deliveryTag := deliveryTag (fields msg) + 1 |};
     properties :=
       Some
         {| correlationId :=
              match properties msg with
              | Some p => correlationId p
              | None => None
              end;
            headers :=
              Some
                (<[C.HEADER_DEAD_LETTER :=
                     HDeaths
                       [ {| count := n; queue := retryQueueNameOf chan;
                            reason := "expired" |};
                         {| count := n; queue := queueNameOf chan;
                            reason := "rejected" |} ]]>
                   (headersOrEmpty msg)) |} |}.

(** Modelled from the spec: the deliveries of one message to the consumer
    callback of [chan], oldest first, each with the events of its run.
    After a run that rejected the message without requeue, the broker
    delivers it again when the main queue was declared with the retry pair
    as dead-letter target ([maxRetries > 0] at subscribe time), and discards
    it otherwise.  [fuel] bounds the number of deliveries looked at. *)
Fixpoint deliveries (fuel : nat) (chan : Channel) (msg : Message)
    (s : Adapter) : list (Message * list Event) :=
  match fuel with
  | O => []
  | S fuel' =>
      let w := events (createConsumerHandler chan msg) s in
      let s' := final (createConsumerHandler chan msg) s in
      (msg, w) ::
      (if List.existsb isNack w && Js.gt0 (maxRetries chan)
       then deliveries fuel' chan (redelivered chan msg) s'
       else [])
  end.

(** A delivery that was rejected into the retry queue, with budget left. *)
Definition requeuedRun (N : Z) (run : Message * list Event) : Prop :=
  deathCount run.1 + 1 < N /\
  brokerCalls run.2 = [Nack run.1 false false].

(** A delivery that was settled for good, the budget being used up:
    dead-lettered when dead-lettering is enabled, dropped otherwise. *)
Definition settledRun (N : Z) (chan : Channel) (err : JsError)
    (dl : DeadLettering) (run : Message * list Event) : Prop :=
  N <= deathCount run.1 + 1 /\
  brokerCalls run.2 =
    (if Js.truthy_bool (enabled dl) then
       [Publish (Js.or_str (exchangeName dl) "") (queueName dl)
          (VBuffer (content run.1))
          (onlyHeaders (deadLetterHeaders chan run.1 err));
        Ack run.1]
     else [Ack run.1]).

(** The number of times the message came back: every delivery but the first. *)
Definition redeliveries (runs : list (Message * list Event)) : nat :=
  Nat.pred (length runs).

(** The turns during which the buffer stays full and the deadline is not
    reached. *)
Definition stillWaiting (endTime : Z) (t : Turn) : Prop :=
  ready t = false /\ now t < endTime.

(** The exchanges declared with a given type, and the queues declared with
    their options. *)
Definition exchangesAsserted (kind : string) (w : list Event) : list string :=
  omap (fun e =>
          match e with
          | AssertExchange x k _ => if String.eqb k kind then Some x else None
          | _ => None
          end) w.

Definition queuesAsserted (w : list Event)
  : list (option string * QueueOptions) :=
  omap (fun e =>
          match e with
          | AssertQueue q options => Some (q, options)
          | _ => None
          end) w.

(** The dead-letter target that a queue was declared with. *)
Definition deadLetterTargetOf (qname : string) (w : list Event)
  : list (option string * option string) :=
  omap (fun '(q, options) =>
          if bool_decide (q = Some qname)
          then Some (deadLetterExchange options, deadLetterRoutingKey options)
          else None) (queuesAsserted w).

(** ** Histories of calls *)

(** A call on the adapter. *)
Inductive Call :=
| CallTryConnect (connectSettles : Completion unit)
| CallSubscribe (chan : Channel) (tag : string)
| CallPublish (channelName : string) (payload : Value) (options : PublishOpts)
    (world : World)
| CallDeliver (chan : Channel) (msg : Message)
| CallDrain.

Definition perform (tagOf : string -> string) (c : Call) (s : Adapter)
  : Adapter :=
  match c with
  | CallTryConnect connectSettles => final (tryConnect connectSettles tagOf) s
  | CallSubscribe chan tag => final (subscribe chan tag) s
  | CallPublish channelName payload options world =>
      final (publish channelName payload options world) s
  | CallDeliver chan msg => final (createConsumerHandler chan msg) s
  | CallDrain => final onDrain s
  end.

Definition history (tagOf : string -> string) (calls : list Call)
    (s : Adapter) : Adapter :=
  fold_left (fun s c => perform tagOf c s) calls s.

Definition isTryConnect (c : Call) : bool :=
  match c with CallTryConnect _ => true | _ => false end.

Definition attemptsIn (calls : list Call) : nat :=
  length (List.filter isTryConnect calls).

(** The computations that leave the options and the attempt counter alone. *)
Definition keepsAttempts {A} (m : Eff A) : Prop :=
  forall s,
    opts (final m s) = opts s /\
    connectAttempt (final m s) = connectAttempt s.


(** ** Further observations *)

Definition isPublish (e : Event) : bool :=
  match e with Publish _ _ _ _ => true | _ => false end.

Definition isCallHandler (e : Event) : bool :=
  match e with CallHandler _ _ _ => true | _ => false end.

Definition isTimer (e : Event) : bool :=
  match e with SetTimeout _ => true | _ => false end.

Definition isWarning (e : Event) : bool :=
  match e with Log warn _ => true | _ => false end.

(** Logging, and the declarations of [subscribe]: exchanges, queues,
    bindings and consumers. *)
Definition isDeclaration (e : Event) : bool :=
  match e with
  | Log _ _ | AssertExchange _ _ _ | AssertQueue _ _ | BindQueue _ _ _
  | Consume _ _ => true
  | _ => false
  end.

(** How many times a metric was incremented. *)
Definition countMetric (metric : string) (w : list Event) : nat :=
  length
    (List.filter
       (fun e =>
          match e with
          | MetricsIncrement m _ => String.eqb m metric
          | _ => false
          end) w).

(** The queues that a consumer was registered on. *)
Definition consumedQueues (w : list Event) : list string :=
  omap (fun e => match e with Consume q _ => Some q | _ => None end) w.

(** [this.subscriptions.get(key)] *)
Fixpoint map_get (key : string) (m : list (string * Subscription))
  : option Subscription :=
  match m with
  | [] => None
  | (k, v) :: rest => if String.eqb k key then Some v else map_get key rest
  end.

(** The queues of the subscription table, in insertion order. *)
Definition subscribedQueues (s : Adapter) : list string :=
  map (fun entry : string * Subscription => queueNameOf (chan entry.2))
    (subscriptions s).

(** The subscription table is keyed by channel id, one entry per id. *)
Definition keyedById (s : Adapter) : Prop :=
  Forall (fun entry : string * Subscription => entry.1 = id (chan entry.2))
    (subscriptions s) /\
  NoDup (subscriptions s).*1.

(** [s'] carries [s] on: same configuration, same connection flags and
    counters, and every exchange asserted in [s] still asserted. *)
Definition carriesOn (s s' : Adapter) : Prop :=
  opts s' = opts s /\ serializer s' = serializer s /\
  addPrefixTopic s' = addPrefixTopic s /\
  stopping s' = stopping s /\ connected s' = connected s /\
  connectAttempt s' = connectAttempt s /\
  connectionCount s' = connectionCount s /\
  assertedExchanges s ⊆ assertedExchanges s'.

(** The subscription table is left alone. *)
Definition sameTable (s s' : Adapter) : Prop :=
  subscriptions s' = subscriptions s.

(** The computations whose final adapter is related by [R] to the one they
    start from. *)
Definition respects (R : Adapter -> Adapter -> Prop) {A} (m : Eff A) : Prop :=
  forall s, R s (final m s).

(** The computations that emit only events of a given kind. *)
Definition emitsOnly (P : Event -> bool) {A} (m : Eff A) : Prop :=
  forall s, forallb P (events m s) = true.

(** [chan.deadLettering] as [subscribe] leaves it: the channel's over the
    adapter's, with the names resolved when dead-lettering is enabled. *)
Definition deadLetteringAfter (chan : Channel) (s : Adapter) : DeadLettering :=
  let merged :=
    defaultsDeep_deadLettering (deadLettering chan)
      (opt_deadLettering (opts s)) in
  if Js.truthy_bool (enabled merged) then resolveDeadLettering merged s
  else merged.

(** The channel object as [subscribe] leaves it. *)
Definition subscribed (chan : Channel) (s : Adapter) : Channel :=
  {| id := id chan; name := name chan; group := group chan;
     handler := handler chan;
     maxRetries := Js.dflt (maxRetries chan) (opt_maxRetries (opts s));
     deadLettering := Some (deadLetteringAfter chan s);
     amqp := amqp chan; unsubscribing := unsubscribing chan |}.

(** Whether [publish] is to declare the exchange first:
    [publishAssertExchange.enabled] after the defaults are applied. *)
Definition assertsExchange (options : PublishOpts) (s : Adapter) : bool :=
  (defaultsDeep_publishAssertExchange (publishAssertExchange options)
     (ao_publishAssertExchange (opt_amqp (opts s)))).1.

(** The body that [publish] hands to the channel:
    [opts.raw ? payload : this.serializer.serialize(payload)]. *)
Definition dataOf (options : PublishOpts) (s : Adapter) (payload : Value)
  : Completion Value :=
  if raw options then Return payload
  else match serialize (serializer s) payload with
       | Return b => Return (VBuffer b)
       | Throw err => Throw err
       | Pending => Pending
       end.

(** ** [unsubscribe] *)

Definition set_unsubscribing (b : bool) (c : Channel) : Channel :=
  {| id := id c; name := name c; group := group c; handler := handler c;
     maxRetries := maxRetries c; deadLettering := deadLettering c;
     amqp := amqp c; unsubscribing := b |}.

(** Modelled from the spec: [getNumberOfChannelActiveMessages] of the base
    adapter (absent from the sources) is the size of the channel's set of
    in-flight message ids ("the Active-Message Tracker shows zero in-flight
    messages for that channel"). *)
Definition getNumberOfChannelActiveMessages (channelID : string) : Eff Z :=
  s ← get; ret (Z.of_nat (size (activeOf channelID s))).

(** Modelled from the spec: [stopChannelActiveMessages] of the base adapter
    (absent from the sources) drops the channel from the tracker ("at which
    point it stops tracking the channel entirely"). *)
Definition stopChannelActiveMessages (channelID : string) : Eff unit :=
  modify (fun s =>
    set_activeMessages (delete channelID (activeMessages s)) s).

(** One run of [checkPendingMessages]; each element of [later] is the
    tracker as the callbacks that ran before the next run left it.  When
    there is no further turn the timer never fires and the promise stays
    pending. *)
Fixpoint checkPendingMessages (chan : Channel)
    (later : list (gmap string (gset string))) : Eff unit :=
  n ← getNumberOfChannelActiveMessages (id chan);
  if n =? 0 then
    logger debug
      ("Unsubscribing from '" +:+ name chan +:+ "' chan with '" +:+
       Js.interp (group chan) +:+ "' group...'");;
    stopChannelActiveMessages (id chan)
  else
    logger warn
      ("Processing " +:+ pretty n +:+ " message(s) of '" +:+ id chan +:+
       "'...");;
    emit (SetTimeout 1000);;
    match later with
    | [] => lift Pending
    | active :: rest =>
        modify (set_activeMessages active);;
        checkPendingMessages chan rest
    end.

(** [unsubscribe(chan)]; [cancelSettles] is the outcome of
    [channel.cancel] for a consumer tag, a call of which no record is kept,
    and [meanwhile] is the tracker as the callbacks that ran while the
    cancellation was awaited left it.  The call leaves the channel object
    with [unsubscribing] set, whatever its outcome:
    [set_unsubscribing true chan]. *)
Definition unsubscribe (chan : Channel)
    (cancelSettles : string -> Completion unit)
    (meanwhile : gmap string (gset string))
    (later : list (gmap string (gset string))) : Eff unit :=
  if unsubscribing chan then ret tt
  else
    let chan := set_unsubscribing true chan in
    logger debug
      ("Unsubscribing from '" +:+ name chan +:+ "' chan with '" +:+
       Js.interp (group chan) +:+ "' group...'");;
    s ← get;
    match map_get (id chan) (subscriptions s) with
    | None => ret tt
    | Some sub =>
        modify (set_activeMessages meanwhile);;
        lift (cancelSettles (sub_consumerTag sub));;
        checkPendingMessages chan later
    end.

(** The sets of in-flight ids of a channel in a sequence of trackers, those
    that the runs of [checkPendingMessages] see one after the other, and
    the number of runs that find handlers still at work before one finds
    none. *)
Definition seenBy (channelID : string)
    (trackers : list (gmap string (gset string))) : list (gset string) :=
  map (fun active => default ∅ (active !! channelID)) trackers.

Fixpoint waitsFor (seen : list (gset string)) : nat :=
  match seen with
  | [] => 0
  | ids :: rest => if bool_decide (ids = ∅) then 0 else S (waitsFor rest)
  end.

(** ** Sample values *)

Module Sample.

Definition json : Serializer :=
  {| serialize := fun _ => Return "{}";
     deserialize := fun b => Return (VString b) |}.

(** A prefixing in the manner of a namespaced deployment. *)
Definition prefixed (topic : option string) : option string :=
  match topic with
  | Some t => if Js.truthy_str t then Some ("prod." +:+ t) else Some t
  | None => None
  end.

Definition noMessageOptions : MessageOptions :=
  {| mo_persistent := None; mo_expiration := None; mo_priority := None;
     mo_correlationId := None; mo_headers := None; mo_timeout := None |}.

Definition noQueueOptions : QueueOptions :=
  {| arguments := None; deadLetterExchange := None;
     deadLetterRoutingKey := None; messageTtl := None; other := ∅ |}.

Definition options (uris : option (list string)) : Options :=
  {| maxInFlight := None; opt_maxRetries := None; retryInterval := None;
     opt_deadLettering := None;
     opt_amqp :=
       {| url := uris; queueOptions := noQueueOptions; exchangeOptions := ∅;
          messageOptions := noMessageOptions; consumerOptions := ∅;
          ao_publishAssertExchange := None |} |}.

Definition endpoints : list string :=
  ["amqp://a"; "amqp://b"; "amqp://c"].

(** A freshly constructed adapter, and one that has connected. *)
Definition fresh : Adapter :=
  AmqpAdapter (options (Some endpoints)) json prefixed.

Definition online : Adapter :=
  set_connectionCount 1 (set_connectAttempt 1 (set_connected true fresh)).

Definition deadLetters (on : bool) : DeadLettering :=
  {| enabled := Some on; queueName := Some "FAILED_MESSAGES";
     exchangeName := Some "DEAD_LETTER" |}.

(** A channel of group [billing] whose handler always throws [err]. *)
Definition failing (err : JsError) (retries : option Z) (dl : bool)
  : Channel :=
  {| id := "billing.orders"; name := "orders"; group := Some "billing";
     handler := fun _ _ => Throw err;
     maxRetries := retries; deadLettering := Some (deadLetters dl);
     amqp := None; unsubscribing := false |}.

Definition boom : JsError := new Error "boom".

Definition invalid : JsError := new MoleculerError "invalid payload".

(** A first delivery: no death history yet. *)
Definition order : Message :=
  {| content := "{}";
     fields := {| consumerTag := "amq.ctag-1"; deliveryTag := 1 |};
     properties :=
       Some {| correlationId := None;
               headers := Some {[ "x-trace" := HString "t1" ]} |} |}.

Definition plain : PublishOpts :=
  {| persistent := None; ttl := None; priority := None;
     po_correlationId := None; po_headers := None; timeout := None;
     raw := false; routingKey := None; publishAssertExchange := None |}.

(** The write buffer never drains; the clock passes the ten seconds. *)
Definition saturated : World :=
  {| schedule :=
       {| started := 0; firstCheck := 0;
          turns := [ {| ready := false; now := 5000 |};
                     {| ready := false; now := 10000 |} ] |};
     assertExchangeSettles := Return tt;
     publishReturns := Return true |}.

(** The write buffer drains after five seconds. *)
Definition draining : World :=
  {| schedule :=
       {| started := 0; firstCheck := 0;
          turns := [ {| ready := false; now := 2500 |};
                     {| ready := true; now := 5000 |} ] |};
     assertExchangeSettles := Return tt;
     publishReturns := Return true |}.

End Sample.

(** ** Further sample values *)

Module Scenario.

(** A channel of group [billing] whose handler succeeds. *)
Definition working : Channel :=
  {| id := "billing.orders"; name := "orders"; group := Some "billing";
     handler := fun _ _ => Return tt;
     maxRetries := Some 3; deadLettering := Some (Sample.deadLetters true);
     amqp := None; unsubscribing := false |}.

(** A delivery whose properties carry no headers. *)
Definition bare : Message :=
  {| content := "{}";
     fields := {| consumerTag := "amq.ctag-1"; deliveryTag := 7 |};
     properties := Some {| correlationId := None; headers := None |} |}.

(** A serializer that rejects everything, and a connected adapter with it. *)
Definition broken : Serializer :=
  {| serialize := fun _ => Throw Sample.boom;
     deserialize := fun _ => Throw Sample.boom |}.

Definition garbled : Adapter :=
  set_connectionCount 1
    (set_connectAttempt 1
       (set_connected true
          (AmqpAdapter (Sample.options (Some Sample.endpoints)) broken
             Sample.prefixed))).

(** Options of a [publish] that declares the exchange first. *)
Definition asserting : PublishOpts :=
  {| persistent := None; ttl := None; priority := None;
     po_correlationId := None; po_headers := None; timeout := None;
     raw := false; routingKey := None;
     publishAssertExchange :=
       Some {| pae_enabled := Some true; pae_exchangeOptions := None |} |}.

(** The broker rejects the declaration of the exchange. *)
Definition refusing : World :=
  {| schedule := schedule Sample.draining;
     assertExchangeSettles := Throw Sample.boom;
     publishReturns := Return true |}.

(** The write buffer drains, and then [channel.publish] throws. *)
Definition closing : World :=
  {| schedule := schedule Sample.draining;
     assertExchangeSettles := Return tt;
     publishReturns := Throw Sample.boom |}.

(** The connected adapter after [working] was subscribed. *)
Definition listening : Adapter :=
  final (subscribe working "amq.ctag-1") Sample.online.

(** The tracker while a handler of [working] is at work. *)
Definition atWork : gmap string (gset string) :=
  {[ "billing.orders" := {[ "amq.ctag-1:1" ]} ]}.

End Scenario.

(** * Properties *)

(** ** Running a computation *)

Ltac run :=
  cbv beta iota zeta delta
    [mbind mret Eff_bind Eff_ret bind ret throw tryCatch emit get modify lift
     when logger result final events channel_ack channel_nack channel_publish
     metricsIncrement addChannelActiveMessages removeChannelActiveMessages
     initChannelActiveMessages moveToDeadLetter isWriteBufferReady fst snd];
  cbn [opts serializer addPrefixTopic stopping connected connectAttempt
       connectionCount assertedExchanges writeBufferReady subscriptions
       activeMessages set_activeMessages set_writeBufferReady
       set_assertedExchanges set_connectAttempt set_connectionCount
       set_connected set_subscriptions app andb negb orb].


(** ** Publishing while stopping or disconnected *)

(** C7. While the adapter is stopping, [publish] returns at once: nothing
    is serialized, sent or logged and the adapter is unchanged.  Otherwise,
    while it is not connected, [publish] throws a [MoleculerRetryableError]
    (a retryable framework error), again before any call is made. *)
Theorem publish_stopping_or_disconnected
    (channelName : string) (payload : Value) (options : PublishOpts)
    (world : World) (s : Adapter) :
  let notConnected :=
    new MoleculerRetryableError
      "Adapter not yet connected. Skipping publishing." in
  (stopping s = true ->
   publish channelName payload options world s = (Return tt, s, [])) /\
  (stopping s = false -> connected s = false ->
   publish channelName payload options world s = (Throw notConnected, s, [])
   /\ instanceof notConnected MoleculerRetryableError = true).
Proof.
  split.
  - intros Hs. unfold publish. run. by rewrite Hs.
  - intros Hs Hc. unfold publish. run. rewrite Hs, Hc. run. by split.
Qed.

Lemma publish_stopping_or_disconnected_witness :
  publish "orders" (VString "x") Sample.plain Sample.saturated
    (set_stopping true Sample.online)
  = (Return tt, set_stopping true Sample.online, []) /\
  publish "orders" (VString "x") Sample.plain Sample.saturated Sample.fresh
  = (Throw (new MoleculerRetryableError
              "Adapter not yet connected. Skipping publishing."),
     Sample.fresh, []).
Proof.
  split.
  - apply (publish_stopping_or_disconnected "orders" (VString "x")
             Sample.plain Sample.saturated (set_stopping true Sample.online)).
    reflexivity.
  - apply (publish_stopping_or_disconnected "orders" (VString "x")
             Sample.plain Sample.saturated Sample.fresh); reflexivity.
Defined.

(** ** Dead-letter routing *)

Lemma deadLetterHeaders_kept (chan : Channel) (msg : Message) (err : JsError)
    (k : string) (v : HeaderValue) :
  headersOrEmpty msg !! k = Some v ->
  deadLetterHeaders chan msg err !! k = Some v.
Proof. intros H. unfold deadLetterHeaders. by apply lookup_union_Some_l. Qed.

Lemma deadLetterHeaders_fresh (chan : Channel) (msg : Message) (err : JsError)
    (k : string) :
  headersOrEmpty msg !! k = None ->
  deadLetterHeaders chan msg err !! k =
    (<[C.HEADER_ERROR_MESSAGE := HString (message err)]>
       (<[C.HEADER_ORIGINAL_GROUP := optString (group chan)]>
          ({[C.HEADER_ORIGINAL_CHANNEL := HString (name chan)]}))
     : Headers) !! k.
Proof. intros H. unfold deadLetterHeaders. by rewrite lookup_union_r. Qed.

(** C3. [moveToDeadLetter] publishes the body of the message as it was
    received (the buffer itself, the serializer is not called), to the
    dead-letter exchange with the dead-letter queue as routing key, then
    counts the dead-lettering and acknowledges the message.  Every header
    the message already had is published with its value; each of the three
    provenance headers (channel name, group, error message) is published
    where the message had no header of that name; no other header is
    added. *)
Theorem moveToDeadLetter_publishes_original
    (chan : Channel) (msg : Message) (err : JsError) (dl : DeadLettering)
    (s : Adapter) :
  deadLettering chan = Some dl ->
  let hs := deadLetterHeaders chan msg err in
  moveToDeadLetter chan msg err s =
    (Return tt, s,
     [Publish (Js.or_str (exchangeName dl) "") (queueName dl)
        (VBuffer (content msg)) (onlyHeaders hs);
      MetricsIncrement C.METRIC_CHANNELS_MESSAGES_DEAD_LETTERING_TOTAL
        (id chan);
      Ack msg]) /\
  (forall k v, headersOrEmpty msg !! k = Some v -> hs !! k = Some v) /\
  (headersOrEmpty msg !! C.HEADER_ORIGINAL_CHANNEL = None ->
   hs !! C.HEADER_ORIGINAL_CHANNEL = Some (HString (name chan))) /\
  (headersOrEmpty msg !! C.HEADER_ORIGINAL_GROUP = None ->
   hs !! C.HEADER_ORIGINAL_GROUP = Some (optString (group chan))) /\
  (headersOrEmpty msg !! C.HEADER_ERROR_MESSAGE = None ->
   hs !! C.HEADER_ERROR_MESSAGE = Some (HString (message err))) /\
  (forall k,
     k <> C.HEADER_ORIGINAL_CHANNEL -> k <> C.HEADER_ORIGINAL_GROUP ->
     k <> C.HEADER_ERROR_MESSAGE ->
     hs !! k = headersOrEmpty msg !! k).
Proof.
  intros Hdl hs. repeat split.
  - unfold moveToDeadLetter, deadLetteringOf. rewrite Hdl. by run.
  - intros k v. apply deadLetterHeaders_kept.
  - intros H. unfold hs. rewrite deadLetterHeaders_fresh by done.
    by rewrite !lookup_insert_ne, lookup_singleton_eq.
  - intros H. unfold hs. rewrite deadLetterHeaders_fresh by done.
    by rewrite lookup_insert_ne, lookup_insert_eq.
  - intros H. unfold hs. rewrite deadLetterHeaders_fresh by done.
    by rewrite lookup_insert_eq.
  - intros k H1 H2 H3. unfold hs.
    destruct (headersOrEmpty msg !! k) as [v|] eqn:Hk.
    + by apply deadLetterHeaders_kept.
    + rewrite deadLetterHeaders_fresh by done.
      rewrite !lookup_insert_ne by done. by rewrite lookup_singleton_ne.
Qed.

Lemma moveToDeadLetter_publishes_original_witness :
  brokerCalls
    (events (moveToDeadLetter (Sample.failing Sample.boom (Some 1) true)
               Sample.order Sample.boom) Sample.online)
  = [Publish "DEAD_LETTER" (Some "FAILED_MESSAGES") (VBuffer "{}")
       (onlyHeaders
          (deadLetterHeaders (Sample.failing Sample.boom (Some 1) true)
             Sample.order Sample.boom));
     Ack Sample.order]
  /\ deadLetterHeaders (Sample.failing Sample.boom (Some 1) true)
       Sample.order Sample.boom !! "x-trace" = Some (HString "t1")
  /\ deadLetterHeaders (Sample.failing Sample.boom (Some 1) true)
       Sample.order Sample.boom !! "x-original-group"
     = Some (HString "billing").
Proof.
  pose proof (moveToDeadLetter_publishes_original
                (Sample.failing Sample.boom (Some 1) true) Sample.order
                Sample.boom (Sample.deadLetters true) Sample.online eq_refl)
    as (Hrun & Hkept & _ & Hgroup & _).
  split; [| split].
  - unfold events. rewrite Hrun. reflexivity.
  - apply Hkept. reflexivity.
  - apply Hgroup. reflexivity.
Defined.

(** ** The consumer callback *)

Ltac split_match :=
  match goal with
  | |- context [match ?x with _ => _ end] =>
      first [ is_var x; destruct x
            | lazymatch x with
              | context [match _ with _ => _ end] => fail
              | _ => destruct x eqn:?
              end ]
  end.

(** Search an event in a list of events that is written out. *)
Ltac find_event := repeat first [left; reflexivity | right].

(** Case analysis along every path of the callback. *)
Ltac handler_cases :=
  unfold createConsumerHandler, moveToDeadLetter, deadLetteringOf, xDeathOf,
    firstCount, messageId;
  repeat (run; split_match).

Lemma deregistered (cid mid : string) (m : gmap string (gset string))
    (s : Adapter) :
  mid ∉ activeOf cid
    (set_activeMessages (alter (fun ids => ids ∖ list_to_set [mid]) cid m) s).
Proof.
  unfold activeOf. cbn [activeMessages set_activeMessages].
  rewrite lookup_alter_eq. destruct (m !! cid) as [ids |]; simpl.
  - intros [_ Hnot]%elem_of_difference. apply Hnot.
    apply elem_of_union_l, elem_of_singleton. reflexivity.
  - apply not_elem_of_empty.
Qed.




(** C2. When the handler throws a framework error that is not a retryable
    framework error, the callback settles the message in that same run:
    with dead-lettering enabled it publishes it to the dead-letter target
    and acknowledges it, otherwise it acknowledges it (drop).  It never
    rejects the message into the retry queue.  Nothing is assumed about
    [maxRetries] or about the death history of the message. *)
Theorem non_retryable_never_requeued
    (chan : Channel) (msg : Message) (p : Properties) (v : Value)
    (err : JsError) (dl : DeadLettering) (s : Adapter) :
  unsubscribing chan = false ->
  properties msg = Some p ->
  deserialize (serializer s) (content msg) = Return v ->
  handler chan v msg = Throw err ->
  instanceof err MoleculerError = true ->
  instanceof err MoleculerRetryableError = false ->
  deadLettering chan = Some dl ->
  let w := events (createConsumerHandler chan msg) s in
  result (createConsumerHandler chan msg) s = Return tt /\
  brokerCalls w =
    (if Js.truthy_bool (enabled dl) then
       [Publish (Js.or_str (exchangeName dl) "") (queueName dl)
          (VBuffer (content msg))
          (onlyHeaders (deadLetterHeaders chan msg err));
        Ack msg]
     else [Ack msg]) /\
  List.existsb isNack w = false.
Proof.
  intros Hu Hp Hd Hh Hm Hr Hdl w. subst w.
  unfold createConsumerHandler, messageId. rewrite Hu, Hp.
  run. rewrite Hd. run. rewrite Hh. run. rewrite Hm, Hr. run.
  unfold moveToDeadLetter, deadLetteringOf. rewrite Hdl. run.
  destruct (Js.truthy_bool (enabled dl)); run; done.
Qed.

Lemma non_retryable_never_requeued_witness :
  brokerCalls
    (events (createConsumerHandler
               (Sample.failing Sample.invalid (Some 5) false) Sample.order)
       Sample.online)
  = [Ack Sample.order].
Proof.
  apply (non_retryable_never_requeued
           (Sample.failing Sample.invalid (Some 5) false) Sample.order
           {| correlationId := None;
              headers := Some {[ "x-trace" := HString "t1" ]} |}
           (VString "{}") Sample.invalid (Sample.deadLetters false)
           Sample.online);
    reflexivity.
Defined.

(** One run of the callback on a message whose handler fails with an error
    that is to be retried, on a channel with a retry budget [N]: the
    message is rejected without requeue while the incremented count is
    below [N], and settled (dead-lettered or dropped) otherwise. *)
Lemma retryable_step
    (chan : Channel) (msg : Message) (p : Properties) (h : Headers)
    (v : Value) (err : JsError) (dl : DeadLettering) (N c : Z) (s : Adapter) :
  unsubscribing chan = false ->
  properties msg = Some p ->
  headers p = Some h ->
  firstCount (h !! C.HEADER_DEAD_LETTER) = Return (Js.Int c) ->
  deserialize (serializer s) (content msg) = Return v ->
  handler chan v msg = Throw err ->
  instanceof err MoleculerError && negb (instanceof err MoleculerRetryableError)
    = false ->
  maxRetries chan = Some N ->
  0 < N ->
  deadLettering chan = Some dl ->
  let w := events (createConsumerHandler chan msg) s in
  serializer (final (createConsumerHandler chan msg) s) = serializer s /\
  tookNonRetryableBranch w = false /\
  List.existsb isNack w = (c + 1 <? N) /\
  brokerCalls w =
    (if c + 1 <? N then [Nack msg false false]
     else if Js.truthy_bool (enabled dl) then
       [Publish (Js.or_str (exchangeName dl) "") (queueName dl)
          (VBuffer (content msg))
          (onlyHeaders (deadLetterHeaders chan msg err));
        Ack msg]
     else [Ack msg]).
Proof.
  intros Hu Hp Hh Hc Hd Hth Hcls HN Hpos Hdl w. subst w.
  unfold createConsumerHandler, messageId, xDeathOf. rewrite Hu, Hp.
  run. rewrite Hd. run. rewrite Hth. run. rewrite Hcls. run.
  rewrite HN. unfold Js.truthy_num, Js.gt0.
  replace (N =? 0) with false by (symmetry; apply Z.eqb_neq; lia).
  replace (0 <? N) with true by (symmetry; apply Z.ltb_lt; lia).
  run. rewrite Hh. run. rewrite Hc. run.
  unfold Js.incr, Js.geq.
  destruct (Z.ltb_spec (c + 1) N) as [Hlt | Hge].
  - replace (N <=? c + 1) with false by (symmetry; apply Z.leb_gt; lia).
    by run.
  - replace (N <=? c + 1) with true by (symmetry; apply Z.leb_le; lia).
    unfold moveToDeadLetter, deadLetteringOf. rewrite Hdl. run.
    destruct (Js.truthy_bool (enabled dl)); run; done.
Qed.



(** ** The retry cycle *)

Lemma deliveries_S (fuel : nat) (chan : Channel) (msg : Message) (s : Adapter) :
  deliveries (S fuel) chan msg s =
    (msg, events (createConsumerHandler chan msg) s) ::
    (if List.existsb isNack (events (createConsumerHandler chan msg) s)
        && Js.gt0 (maxRetries chan)
     then deliveries fuel chan (redelivered chan msg)
            (final (createConsumerHandler chan msg) s)
     else []).
Proof. reflexivity. Qed.

Lemma redelivered_deathCount (chan : Channel) (msg : Message) :
  deathCount (redelivered chan msg) = deathCount msg + 1.
Proof.
  unfold deathCount at 1, redelivered, headersOrEmpty at 1.
  cbn [properties headers]. by rewrite lookup_insert_eq.
Qed.

Lemma redelivered_firstCount (chan : Channel) (msg : Message) :
  exists p h,
    properties (redelivered chan msg) = Some p /\ headers p = Some h /\
    firstCount (h !! C.HEADER_DEAD_LETTER)
    = Return (Js.Int (deathCount (redelivered chan msg))).
Proof.
  do 2 eexists. split; [reflexivity |]. split; [reflexivity |].
  rewrite redelivered_deathCount. by rewrite lookup_insert_eq.
Qed.

Lemma counts_shift (c : Z) (k : nat) :
  c :: map (fun i => c + 1 + Z.of_nat i) (seq 0 k)
  = map (fun i => c + Z.of_nat i) (seq 0 (S k)).
Proof.
  cbn [seq map]. f_equal; [lia |].
  rewrite <- seq_shift, map_map. apply map_ext. intros i. lia.
Qed.

(** The deliveries of a message whose handler always fails with an error
    to be retried, from a delivery with death count [N - 1 - k] on. *)
Lemma retry_cycle
    (chan : Channel) (v : Value) (err : JsError) (dl : DeadLettering)
    (N : Z) (ser : Serializer) (body : Buffer) :
  unsubscribing chan = false ->
  maxRetries chan = Some N ->
  0 < N ->
  deadLettering chan = Some dl ->
  deserialize ser body = Return v ->
  (forall m, handler chan v m = Throw err) ->
  instanceof err MoleculerError && negb (instanceof err MoleculerRetryableError)
    = false ->
  forall (k : nat) (msg : Message) (s : Adapter) (p : Properties)
         (h : Headers) (fuel : nat),
    properties msg = Some p ->
    headers p = Some h ->
    firstCount (h !! C.HEADER_DEAD_LETTER) = Return (Js.Int (deathCount msg)) ->
    content msg = body ->
    serializer s = ser ->
    deathCount msg + 1 + Z.of_nat k = N ->
    (S k <= fuel)%nat ->
    exists retried last,
      deliveries fuel chan msg s = retried ++ [last] /\
      length retried = k /\
      Forall (requeuedRun N) retried /\
      settledRun N chan err dl last /\
      map (fun run => deathCount run.1) (retried ++ [last])
      = map (fun i => deathCount msg + Z.of_nat i) (seq 0 (S k)).
Proof.
  intros Hu HN Hpos Hdl Hd Hth Hcls k.
  induction k as [| k IH]; intros msg s p h fuel Hp Hh Hc Hb Hs Hk Hfuel;
    (destruct fuel as [| fuel]; [lia |]);
    rewrite deliveries_S;
    destruct (retryable_step chan msg p h v err dl N (deathCount msg) s)
      as (Hser & _ & Hnack & Hcalls);
    try done; try (by rewrite Hs, Hb);
    rewrite Hnack, HN; unfold Js.gt0.
  - replace (deathCount msg + 1 <? N) with false in *
      by (symmetry; apply Z.ltb_ge; lia).
    exists [], (msg, events (createConsumerHandler chan msg) s).
    repeat split; try done.
    + simpl. lia.
    + simpl. f_equal. lia.
  - replace (deathCount msg + 1 <? N) with true in *
      by (symmetry; apply Z.ltb_lt; lia).
    replace (0 <? N) with true by (symmetry; apply Z.ltb_lt; lia).
    cbn [andb].
    destruct (redelivered_firstCount chan msg) as (p' & h' & Hp' & Hh' & Hc').
    destruct (IH (redelivered chan msg)
                (final (createConsumerHandler chan msg) s) p' h' fuel)
      as (retried & last & Heq & Hlen & Hre & Hlast & Hcounts);
      try done.
    + by rewrite Hser.
    + rewrite redelivered_deathCount. lia.
    + lia.
    + exists ((msg, events (createConsumerHandler chan msg) s) :: retried), last.
      rewrite Heq. repeat split; try done.
      * simpl. by rewrite Hlen.
      * constructor; [| done]. split; [simpl; lia | done].
      * apply Hlast.
      * apply Hlast.
      * cbn [app map fst]. rewrite Hcounts, redelivered_deathCount.
        apply counts_shift.
Qed.

(** C1 (as amended).  On a channel with [maxRetries = N > 0] whose handler
    fails on every delivery with an error to be retried, a message that
    arrives with a headers table and no death history is delivered exactly
    [N] times: the first [N - 1] deliveries are rejected into the retry
    queue, which makes [N - 1] redeliveries, and the [N]-th is dead-lettered
    when dead-lettering is enabled and acknowledged and dropped otherwise.
    The counts read from the death history are [0, 1, ..., N - 1], strictly
    increasing, and a delivery is settled for good exactly when its
    incremented count reaches [N]. *)
Theorem retry_budget_counts_deliveries
    (chan : Channel) (msg : Message) (p : Properties) (h : Headers)
    (v : Value) (err : JsError) (dl : DeadLettering) (N : Z) (s : Adapter)
    (fuel : nat) :
  unsubscribing chan = false ->
  maxRetries chan = Some N ->
  0 < N ->
  deadLettering chan = Some dl ->
  properties msg = Some p ->
  headers p = Some h ->
  h !! C.HEADER_DEAD_LETTER = None ->
  deserialize (serializer s) (content msg) = Return v ->
  (forall m, handler chan v m = Throw err) ->
  instanceof err MoleculerError && negb (instanceof err MoleculerRetryableError)
    = false ->
  (Z.to_nat N <= fuel)%nat ->
  exists retried last,
    deliveries fuel chan msg s = retried ++ [last] /\
    Z.of_nat (length retried) = N - 1 /\
    Forall (requeuedRun N) retried /\
    settledRun N chan err dl last /\
    map (fun run => deathCount run.1) (retried ++ [last])
    = map Z.of_nat (seq 0 (Z.to_nat N)) /\
    Z.of_nat (redeliveries (deliveries fuel chan msg s)) = N - 1.
Proof.
  intros Hu HN Hpos Hdl Hp Hh Hx Hd Hth Hcls Hfuel.
  assert (Hzero : deathCount msg = 0).
  { unfold deathCount, headersOrEmpty. by rewrite Hp, Hh, Hx. }
  destruct (retry_cycle chan v err dl N (serializer s) (content msg)
              Hu HN Hpos Hdl Hd Hth Hcls (Z.to_nat (N - 1)) msg s p h fuel)
    as (retried & last & Heq & Hlen & Hre & Hlast & Hcounts);
    try done.
  - by rewrite Hx, Hzero.
  - lia.
  - lia.
  - exists retried, last. repeat split; try done.
    + lia.
    + apply Hlast.
    + apply Hlast.
    + rewrite Hcounts, Hzero.
      replace (S (Z.to_nat (N - 1))) with (Z.to_nat N) by lia.
      apply map_ext. intros i. lia.
    + rewrite Heq. unfold redeliveries. rewrite length_app. simpl. lia.
Qed.

Lemma retry_budget_counts_deliveries_witness :
  Z.of_nat
    (redeliveries
       (deliveries 5 (Sample.failing Sample.boom (Some 3) true) Sample.order
          Sample.online))
  = 2.
Proof.
  destruct (retry_budget_counts_deliveries
              (Sample.failing Sample.boom (Some 3) true) Sample.order
              {| correlationId := None;
                 headers := Some {[ "x-trace" := HString "t1" ]} |}
              {[ "x-trace" := HString "t1" ]}
              (VString "{}") Sample.boom (Sample.deadLetters true) 3
              Sample.online 5)
    as (retried & last & _ & _ & _ & _ & _ & H);
    [reflexivity | reflexivity | lia | reflexivity | reflexivity | reflexivity
    | reflexivity | reflexivity | intros m; reflexivity | reflexivity | lia |].
  exact H.
Defined.

(** C1 as stated fails: with [maxRetries = 1] the very first delivery of a
    message whose handler fails with a plain [Error] is dead-lettered; the
    message is delivered once and never redelivered, whereas the claim
    announces one redelivery. *)
Lemma redelivered_N_times_counterexample :
  maxRetries (Sample.failing Sample.boom (Some 1) true) = Some 1 /\
  instanceof Sample.boom MoleculerError = false /\
  brokerCalls
    (events (createConsumerHandler (Sample.failing Sample.boom (Some 1) true)
               Sample.order) Sample.online)
  = [Publish "DEAD_LETTER" (Some "FAILED_MESSAGES") (VBuffer "{}")
       (onlyHeaders
          (deadLetterHeaders (Sample.failing Sample.boom (Some 1) true)
             Sample.order Sample.boom));
     Ack Sample.order] /\
  length (deliveries 4 (Sample.failing Sample.boom (Some 1) true)
            Sample.order Sample.online) = 1%nat /\
  Z.of_nat
    (redeliveries
       (deliveries 4 (Sample.failing Sample.boom (Some 1) true)
          Sample.order Sample.online))
  <> 1.
Proof.
  split; [reflexivity |]. split; [reflexivity |]. split; [reflexivity |].
  rewrite deliveries_S.
  replace (List.existsb isNack
             (events (createConsumerHandler
                        (Sample.failing Sample.boom (Some 1) true)
                        Sample.order) Sample.online))
    with false by (vm_compute; reflexivity).
  split; [reflexivity | discriminate].
Qed.

(** ** Publishing against a full write buffer *)

Lemma checkCondition_drained (endTime interval : Z) (before : list Turn)
    (t : Turn) (after : list Turn) :
  Forall (stillWaiting endTime) before ->
  ready t = true ->
  forall (clock : Z) (s : Adapter),
    writeBufferReady s = false ->
    clock < endTime ->
    checkCondition isWriteBufferReady endTime interval clock
      (before ++ t :: after) s
    = (Return tt, set_writeBufferReady true s,
       replicate (S (length before)) (SetTimeout interval)).
Proof.
  intros Hbefore Ht. induction Hbefore as [| t' before [Hr Hn] _ IH];
    intros clock s Hs Hclock; cbn [app checkCondition]; run;
    rewrite Hs; run;
    replace (clock <? endTime) with true by (symmetry; apply Z.ltb_lt; lia);
    run.
  - rewrite Ht. by destruct after; cbn [checkCondition]; run.
  - rewrite Hr, IH by done. by run.
Qed.

Lemma checkCondition_timed_out (endTime interval : Z) (before : list Turn)
    (t : Turn) (after : list Turn) :
  Forall (stillWaiting endTime) before ->
  ready t = false ->
  endTime <= now t ->
  forall (clock : Z) (s : Adapter),
    writeBufferReady s = false ->
    clock < endTime ->
    checkCondition isWriteBufferReady endTime interval clock
      (before ++ t :: after) s
    = (Throw (new Error "timed out"), set_writeBufferReady false s,
       replicate (S (length before)) (SetTimeout interval)).
Proof.
  intros Hbefore Ht Hlate. induction Hbefore as [| t' before [Hr Hn] _ IH];
    intros clock s Hs Hclock; cbn [app checkCondition]; run;
    rewrite Hs; run;
    replace (clock <? endTime) with true by (symmetry; apply Z.ltb_lt; lia);
    run.
  - rewrite Ht.
    destruct after; cbn [checkCondition]; run;
      replace (now t <? endTime) with false
        by (symmetry; apply Z.ltb_ge; lia);
      by run.
  - rewrite Hr, IH by done. by run.
Qed.

Lemma default_publish_timeout (o : Options) (s : Adapter)
    (options : PublishOpts) :
  opts s = withDefaults o ->
  timeout options = None ->
  mo_timeout (messageOptions (opt_amqp o)) = None ->
  mo_timeout (messageOptionsOf options s) = Some C.DEFAULT_PUBLISH_TIMEOUT.
Proof.
  intros Hopts Hcall Hadapter. unfold messageOptionsOf. rewrite Hopts. simpl.
  by rewrite Hcall, Hadapter.
Qed.

Lemma timers_are_not_broker_calls (n : nat) (ms : Z) :
  List.filter isBrokerCall (replicate n (SetTimeout ms)) = [].
Proof. induction n as [| n IH]; [done | exact IH]. Qed.


(** C4 (as amended).  Let [publish] be called on a connected adapter whose
    write-buffer flag is false, and let the deadline be the clock at the
    start of the wait plus the timeout of the message (the option of the
    call, else the adapter's, [10000] ms when neither is given).  If the
    flag is found true at a check made before a check has seen the deadline
    pass, the message is sent with the merged options and the flag takes the
    value the send returns.  If the flag is false at every check up to the
    first one at which the deadline has passed, nothing is sent and
    [publish] throws a [MoleculerError] with message
    ["AMQP publish error: write buffer full"]; this error is not a
    [MoleculerRetryableError]. *)
Theorem publish_waits_for_drain
    (channelName : string) (payload : Value) (options : PublishOpts)
    (world : World) (s : Adapter) (before : list Turn) (t : Turn)
    (after : list Turn) :
  stopping s = false ->
  connected s = true ->
  writeBufferReady s = false ->
  (raw options = true \/
   exists b, serialize (serializer s) payload = Return b) ->
  assertExchangeSettles world = Return tt ->
  turns (schedule world) = before ++ t :: after ->
  let endTime :=
    endTimeOf (mo_timeout (messageOptionsOf options s)) (schedule world) in
  let bufferFull := new MoleculerError "AMQP publish error: write buffer full" in
  firstCheck (schedule world) < endTime ->
  Forall (stillWaiting endTime) before ->
  (ready t = true ->
   forall sent, publishReturns world = Return sent ->
     result (publish channelName payload options world) s = Return tt /\
     (exists data,
        brokerCalls (events (publish channelName payload options world) s)
        = [Publish channelName (Some (Js.or_str (routingKey options) "")) data
             (messageOptionsOf options s)] /\
        (raw options = true -> data = payload)) /\
     writeBufferReady (final (publish channelName payload options world) s)
     = sent) /\
  (ready t = false -> endTime <= now t ->
   result (publish channelName payload options world) s = Throw bufferFull /\
   brokerCalls (events (publish channelName payload options world) s) = [] /\
   instanceof bufferFull MoleculerError = true /\
   instanceof bufferFull MoleculerRetryableError = false) /\
  (forall o,
     opts s = withDefaults o ->
     timeout options = None ->
     mo_timeout (messageOptions (opt_amqp o)) = None ->
     endTime = started (schedule world) + 10000).
Proof.
  intros Hs Hc Hw Hser Hassert Hturns endTime bufferFull Hfirst Hbefore.
  split; [| split].
  - intros Hready sent Hsent.
    unfold publish. run. rewrite Hs, Hc. run.
    destruct (raw options) eqn:Hraw;
      [| destruct Hser as [? | [b Hb]]; [congruence |]; rewrite Hb]; run;
      (match goal with
       | |- context [if ?c then _ else _] => destruct c
       end); run; rewrite ?Hassert; run; rewrite Hw; run;
      unfold poll; rewrite Hturns;
      rewrite (checkCondition_drained endTime) by done; run;
      rewrite Hsent; run;
      (split; [done |]); (split; [| done]); eexists;
      (split;
       [ unfold brokerCalls; cbn [List.filter isBrokerCall];
         rewrite !List.filter_app, timers_are_not_broker_calls; reflexivity
       | intros; first [reflexivity | congruence] ]).
  - intros Hready Hlate.
    unfold publish. run. rewrite Hs, Hc. run.
    destruct (raw options) eqn:Hraw;
      [| destruct Hser as [? | [b Hb]]; [congruence |]; rewrite Hb]; run;
      (match goal with
       | |- context [if ?c then _ else _] => destruct c
       end); run; rewrite ?Hassert; run; rewrite Hw; run;
      unfold poll; rewrite Hturns;
      rewrite (checkCondition_timed_out endTime) by done; run;
      (split; [done |]); (split; [| done]);
      unfold brokerCalls; cbn [List.filter isBrokerCall];
      rewrite ?List.filter_app, timers_are_not_broker_calls; reflexivity.
  - intros o Hopts Hcall Hadapter. unfold endTime.
    by rewrite (default_publish_timeout o s options Hopts Hcall Hadapter).
Qed.

Lemma publish_waits_for_drain_witness :
  result (publish "orders" (VString "x") Sample.plain Sample.draining)
    (set_writeBufferReady false Sample.online)
  = Return tt /\
  result (publish "orders" (VString "x") Sample.plain Sample.saturated)
    (set_writeBufferReady false Sample.online)
  = Throw (new MoleculerError "AMQP publish error: write buffer full").
Proof.
  split.
  - destruct (publish_waits_for_drain "orders" (VString "x") Sample.plain
                Sample.draining (set_writeBufferReady false Sample.online)
                [ {| ready := false; now := 2500 |} ]
                {| ready := true; now := 5000 |} [])
      as (H & _ & _);
      [ reflexivity | reflexivity | reflexivity
      | right; exists "{}"; reflexivity | reflexivity | reflexivity
      | reflexivity
      | constructor; [split; reflexivity | constructor] |].
    apply (H eq_refl true eq_refl).
  - destruct (publish_waits_for_drain "orders" (VString "x") Sample.plain
                Sample.saturated (set_writeBufferReady false Sample.online)
                [ {| ready := false; now := 5000 |} ]
                {| ready := false; now := 10000 |} [])
      as (_ & H & _);
      [ reflexivity | reflexivity | reflexivity
      | right; exists "{}"; reflexivity | reflexivity | reflexivity
      | reflexivity
      | constructor; [split; reflexivity | constructor] |].
    apply H; [reflexivity | discriminate].
Defined.

(** C4 as stated fails in its last part: the error that [publish] throws
    when the buffer stays full for the ten seconds of the default timeout
    is a [MoleculerError] that is not a [MoleculerRetryableError], that is,
    an error of the kind the adapter itself treats as not to be retried. *)
Lemma write_buffer_full_counterexample :
  result (publish "orders" (VString "x") Sample.plain Sample.saturated)
    (set_writeBufferReady false Sample.online)
  = Throw (new MoleculerError "AMQP publish error: write buffer full") /\
  instanceof (new MoleculerError "AMQP publish error: write buffer full")
    MoleculerRetryableError = false /\
  instanceof (new MoleculerError "AMQP publish error: write buffer full")
    MoleculerError
  && negb (instanceof
             (new MoleculerError "AMQP publish error: write buffer full")
             MoleculerRetryableError) = true.
Proof. repeat split; reflexivity. Qed.

(** ** The topology declared by [subscribe] *)

Ltac chan_fields :=
  cbn [deadLettering set_deadLettering set_maxRetries maxRetries enabled name
       group id amqp].

(** C5 (as amended).  When [subscribe] runs for a channel whose
    [maxRetries], after the adapter's default is applied, is positive, it
    declares a direct retry exchange named [<group>.retry] when the channel
    has a group and [<name>.retry] otherwise, and a retry queue named
    [<queueName>.retry], where [queueName] is [<group>.<name>] with a group
    and [<name>] without; the retry queue dead-letters back to the channel's
    exchange and main queue and is bound to the retry exchange with its own
    name as routing key.  The main queue is declared with the retry exchange
    as dead-letter exchange and the retry queue name as dead-letter routing
    key.  Without a group the retry exchange and the retry queue have the
    same name. *)
Theorem retry_topology_names (chan : Channel) (tag : string) (s : Adapter) :
  Js.gt0 (match maxRetries chan with
          | None => opt_maxRetries (opts s)
          | Some n => Some n
          end) = true ->
  let w := events (subscribe chan tag) s in
  let queueName :=
    if Js.truthy_ostr (group chan)
    then Js.interp (group chan) +:+ "." +:+ name chan
    else name chan in
  let retryExchangeName :=
    if Js.truthy_ostr (group chan)
    then Js.interp (group chan) +:+ ".retry"
    else queueName +:+ ".retry" in
  let retryQueueName := queueName +:+ ".retry" in
  (exists options, In (AssertExchange retryExchangeName "direct" options) w) /\
  (exists options,
     In (AssertQueue (Some retryQueueName) options) w /\
     deadLetterExchange options = Some (name chan) /\
     deadLetterRoutingKey options = Some queueName) /\
  In (BindQueue (Some retryQueueName) retryExchangeName retryQueueName) w /\
  (exists options,
     In (AssertQueue (Some queueName) options) w /\
     deadLetterExchange options = Some retryExchangeName /\
     deadLetterRoutingKey options = Some retryQueueName) /\
  (Js.truthy_ostr (group chan) = false -> retryExchangeName = retryQueueName).
Proof.
  intros Hgt w queueName retryExchangeName retryQueueName.
  subst w queueName retryExchangeName retryQueueName.
  match goal with
  | |- ?A /\ ?B /\ ?C /\ ?D /\ _ =>
      enough (Hdecl : A /\ B /\ C /\ D)
        by (destruct Hdecl as (? & ? & ? & ?); repeat split; try done;
            intros Hgroup; by rewrite Hgroup)
  end.
  destruct chan as [cid cname cgroup chandler cmax cdl camqp cunsub].
  cbn [maxRetries group name] in *.
  unfold subscribe, deadLetteringOf, defaultMaxRetries, mainQueueOptionsOf,
    retryQueueOptionsOf, retryQueueNameOf, retryExchangeNameOf, queueNameOf.
  chan_fields.
  destruct cmax as [n |];
    repeat (run; chan_fields; split_match).
  all: run; chan_fields.
  all: try congruence.
  all: (split; [eexists; find_event |]).
  all: (split; [eexists; split; [find_event | split; reflexivity] |]).
  all: (split; [find_event |]).
  all: eexists; (split; [find_event |]).
  all: split; reflexivity.
Qed.

Lemma retry_topology_names_witness :
  In (BindQueue (Some "billing.orders.retry") "billing.retry"
        "billing.orders.retry")
    (events (subscribe (Sample.failing Sample.boom (Some 3) true) "ctag-1")
       Sample.online).
Proof.
  destruct (retry_topology_names (Sample.failing Sample.boom (Some 3) true)
              "ctag-1" Sample.online eq_refl)
    as (_ & _ & Hbind & _).
  exact Hbind.
Defined.

(** C5 as stated fails for a channel with a group: for group [billing] and
    name [orders] the retry queue is [billing.orders.retry], but the one
    direct exchange declared, which is also the dead-letter exchange of the
    main queue, is [billing.retry]. *)
Lemma retry_exchange_name_counterexample :
  exchangesAsserted "direct"
    (events (subscribe (Sample.failing Sample.boom (Some 3) true) "ctag-1")
       Sample.online)
  = ["billing.retry"] /\
  deadLetterTargetOf "billing.orders"
    (events (subscribe (Sample.failing Sample.boom (Some 3) true) "ctag-1")
       Sample.online)
  = [(Some "billing.retry", Some "billing.orders.retry")] /\
  "billing.retry" <> "billing.orders.retry".
Proof. split; [| split]; [vm_compute; reflexivity .. | discriminate]. Qed.

(** ** The dead-letter exchange after [subscribe] *)





(** ** Endpoint selection *)

Lemma keeps_ret {A} (a : A) : keepsAttempts (ret a).
Proof. by intros s. Qed.

Lemma keeps_throw {A} (err : JsError) : keepsAttempts (@throw A err).
Proof. by intros s. Qed.

Lemma keeps_emit (e : Event) : keepsAttempts (emit e).
Proof. by intros s. Qed.

Lemma keeps_get : keepsAttempts get.
Proof. by intros s. Qed.

Lemma keeps_lift {A} (c : Completion A) : keepsAttempts (lift c).
Proof. by intros s. Qed.

Lemma keeps_modify (f : Adapter -> Adapter) :
  (forall s, opts (f s) = opts s /\ connectAttempt (f s) = connectAttempt s) ->
  keepsAttempts (modify f).
Proof. intros Hf s. apply Hf. Qed.

Lemma keeps_bind {A B} (m : Eff A) (k : A -> Eff B) :
  keepsAttempts m -> (forall a, keepsAttempts (k a)) ->
  keepsAttempts (m ≫= k).
Proof.
  intros Hm Hk s. unfold keepsAttempts, final in *. specialize (Hm s).
  cbv beta iota zeta delta [mbind Eff_bind bind].
  destruct (m s) as [[[a | err |] s1] w1]; cbn [fst snd] in *; try done.
  specialize (Hk a s1). destruct (k a s1) as [[r s2] w2]. cbn [fst snd] in *.
  destruct Hm, Hk. split; congruence.
Qed.

Lemma keeps_tryCatch {A} (m : Eff A) (h : JsError -> Eff A) :
  keepsAttempts m -> (forall err, keepsAttempts (h err)) ->
  keepsAttempts (tryCatch m h).
Proof.
  intros Hm Hh s. unfold keepsAttempts, final, tryCatch in *.
  specialize (Hm s).
  destruct (m s) as [[[a | err |] s1] w1]; cbn [fst snd] in *; try done.
  specialize (Hh err s1). destruct (h err s1) as [[r s2] w2].
  cbn [fst snd] in *. destruct Hm, Hh. split; congruence.
Qed.

Ltac keeps :=
  repeat first
    [ apply keeps_ret | apply keeps_throw | apply keeps_emit | apply keeps_get
    | apply keeps_lift
    | apply keeps_modify; intros ?; split; reflexivity
    | apply keeps_bind; [| intros ?]
    | apply keeps_tryCatch; [| intros ?]
    | progress cbv zeta
    | match goal with
      | |- keepsAttempts (if ?c then _ else _) => destruct c
      | |- keepsAttempts (match ?x with _ => _ end) => destruct x
      end ].

Lemma keeps_subscribe (chan : Channel) (tag : string) :
  keepsAttempts (subscribe chan tag).
Proof.
  unfold subscribe, logger, when, initChannelActiveMessages. keeps.
  all: apply keeps_modify; intros s0; by destruct (activeMessages s0 !! _).
Qed.

Lemma keeps_handler (chan : Channel) (msg : Message) :
  keepsAttempts (createConsumerHandler chan msg).
Proof.
  unfold createConsumerHandler, moveToDeadLetter, logger, channel_ack,
    channel_nack, metricsIncrement, addChannelActiveMessages,
    removeChannelActiveMessages.
  keeps.
Qed.

Lemma keeps_checkCondition (endTime interval : Z) (later : list Turn) :
  forall clock,
    keepsAttempts (checkCondition isWriteBufferReady endTime interval clock later).
Proof.
  induction later as [| t later IH]; intros clock; cbn [checkCondition];
    unfold isWriteBufferReady; keeps. apply IH.
Qed.

Lemma keeps_publish (channelName : string) (payload : Value)
    (options : PublishOpts) (world : World) :
  keepsAttempts (publish channelName payload options world).
Proof.
  unfold publish, logger, when, channel_publish, poll. keeps;
    try apply keeps_checkCondition; unfold isWriteBufferReady; keeps.
Qed.

Lemma keeps_resubscribeEach (tagOf : string -> string)
    (subs : list (string * Subscription)) :
  keepsAttempts (resubscribeEach subs tagOf).
Proof.
  induction subs as [| [key sub] subs IH]; cbn [resubscribeEach].
  - apply keeps_ret.
  - apply keeps_bind; [apply keeps_subscribe | intros _; apply IH].
Qed.

Lemma tryConnect_counts (connectSettles : Completion unit)
    (tagOf : string -> string) (uris : list string) (s : Adapter) :
  url (opt_amqp (opts s)) = Some uris ->
  opts (final (tryConnect connectSettles tagOf) s) = opts s /\
  connectAttempt (final (tryConnect connectSettles tagOf) s)
  = connectAttempt s + 1 /\
  head (connectedTo (events (tryConnect connectSettles tagOf) s))
  = Some (Js.at_ uris (Js.rem (connectAttempt s) (Z.of_nat (length uris)))).
Proof.
  intros Hurl. unfold tryConnect. run. rewrite Hurl. run.
  replace (connectAttempt s + 1 - 1) with (connectAttempt s) by lia.
  destruct connectSettles as [[] | err |]; run; try done.
  destruct (maxInFlight (opts s)); run;
    (destruct (1 <? connectionCount s + 1); run; [| done]);
    unfold resubscribeAllChannels; run;
    match goal with
    | |- context [resubscribeEach ?subs tagOf ?s1] =>
        pose proof (keeps_resubscribeEach tagOf subs s1) as Hkeep;
        unfold final in Hkeep;
        destruct (resubscribeEach subs tagOf s1) as [[r s2] w2]
    end; cbn [fst snd] in *; destruct Hkeep as [Ho Hc];
    cbn [opts connectAttempt set_connectionCount set_connected
         set_connectAttempt] in *; done.
Qed.


Lemma history_counts (tagOf : string -> string) (uris : list string)
    (calls : list Call) :
  forall s,
    url (opt_amqp (opts s)) = Some uris ->
    opts (history tagOf calls s) = opts s /\
    connectAttempt (history tagOf calls s)
    = connectAttempt s + Z.of_nat (attemptsIn calls).
Proof.
  induction calls as [| c calls IH]; intros s Hurl.
  - unfold attemptsIn. simpl. split; [done | lia].
  - assert (Hstep :
      opts (perform tagOf c s) = opts s /\
      connectAttempt (perform tagOf c s)
      = connectAttempt s + Z.of_nat (attemptsIn [c])).
    { destruct c as [answer | ch tag | cn payload options world | ch msg |];
        unfold attemptsIn; cbn [perform List.filter isTryConnect length].
      - destruct (tryConnect_counts answer tagOf uris s Hurl)
          as (Ho & Hc & _).
        split; [done | lia].
      - destruct (keeps_subscribe ch tag s). split; [done | lia].
      - destruct (keeps_publish cn payload options world s).
        split; [done | lia].
      - destruct (keeps_handler ch msg s). split; [done | lia].
      - split; [done | simpl; lia]. }
    destruct Hstep as [Ho Hc].
    change (history tagOf (c :: calls) s)
      with (history tagOf calls (perform tagOf c s)).
    destruct (IH (perform tagOf c s)) as [Ho' Hc']; [by rewrite Ho |].
    split; [congruence |].
    rewrite Hc', Hc. unfold attemptsIn. cbn [List.filter].
    destruct (isTryConnect c); cbn [length]; lia.
Qed.

(** C6. Take an adapter constructed with a list of [L > 1] endpoints and
    any sequence of calls made on it since: connection attempts, whatever
    their outcome, subscriptions, publications, deliveries, drain events.
    If the sequence holds [k - 1] connection attempts, the next attempt,
    the [k]-th, connects to the endpoint at index [(k - 1) mod L] of the
    list. *)
Theorem round_robin_endpoints
    (o : Options) (ser : Serializer) (pre : option string -> option string)
    (uris : list string) (calls : list Call) (connectSettles : Completion unit)
    (tagOf : string -> string) :
  url (opt_amqp o) = Some uris ->
  (1 < length uris)%nat ->
  let s := history tagOf calls (AmqpAdapter o ser pre) in
  let k := S (attemptsIn calls) in
  head (connectedTo (events (tryConnect connectSettles tagOf) s))
  = Some (uris !! ((k - 1) mod length uris)%nat).
Proof.
  intros Hurl HL s k. subst s k.
  destruct (history_counts tagOf uris calls (AmqpAdapter o ser pre) Hurl)
    as [Ho Hc].
  destruct (tryConnect_counts connectSettles tagOf uris
              (history tagOf calls (AmqpAdapter o ser pre)))
    as (_ & _ & Hsel); [by rewrite Ho |].
  rewrite Hsel, Hc. cbn [connectAttempt AmqpAdapter].
  f_equal. unfold Js.rem, Js.at_.
  replace (Z.of_nat (length uris) =? 0) with false
    by (symmetry; apply Z.eqb_neq; lia).
  rewrite Z.add_0_l, Z.rem_mod_nonneg, <- Nat2Z.inj_mod by lia.
  replace (Z.of_nat (attemptsIn calls mod length uris) <? 0) with false
    by (symmetry; apply Z.ltb_ge; lia).
  rewrite Nat2Z.id. f_equal. f_equal. lia.
Qed.

Lemma round_robin_endpoints_witness :
  head
    (connectedTo
       (events (tryConnect (Return tt) (fun _ => "ctag-1"))
          (history (fun _ => "ctag-1")
             [CallTryConnect (Throw Sample.boom);
              CallTryConnect (Throw Sample.boom);
              CallTryConnect (Throw Sample.boom);
              CallTryConnect (Throw Sample.boom)]
             Sample.fresh)))
  = Some (Some "amqp://b").
Proof.
  apply (round_robin_endpoints (Sample.options (Some Sample.endpoints))
           Sample.json Sample.prefixed Sample.endpoints
           [CallTryConnect (Throw Sample.boom);
            CallTryConnect (Throw Sample.boom);
            CallTryConnect (Throw Sample.boom);
            CallTryConnect (Throw Sample.boom)]
           (Return tt) (fun _ => "ctag-1")).
  - reflexivity.
  - simpl. lia.
Defined.

(** With endpoints [a; b; c], the attempts of one [connect] go to
    [a, b, c, a, b]. *)
Example endpoints_in_turn :
  connectedTo
    (events (connect [Throw Sample.boom; Throw Sample.boom; Throw Sample.boom;
                      Throw Sample.boom; Return tt] (fun _ => "ctag-1"))
       Sample.fresh)
  = [Some "amqp://a"; Some "amqp://b"; Some "amqp://c"; Some "amqp://a";
     Some "amqp://b"].
Proof. vm_compute. reflexivity. Qed.

(** ** The outcomes of the consumer callback *)

(** X1. When the payload decodes and the handler returns, the callback
    logs the receipt, registers the message id, decodes, calls the handler,
    acknowledges the message and deregisters the id, in this order, and
    does nothing else. *)
Theorem handler_success (chan : Channel) (msg : Message) (p : Properties)
    (v : Value) (s : Adapter) :
  unsubscribing chan = false ->
  properties msg = Some p ->
  deserialize (serializer s) (content msg) = Return v ->
  handler chan v msg = Return tt ->
  let msgId :=
    Js.or_str (correlationId p)
      (consumerTag (fields msg) +:+ ":" +:+ pretty (deliveryTag (fields msg))) in
  result (createConsumerHandler chan msg) s = Return tt /\
  events (createConsumerHandler chan msg) s =
    [Log debug
       ("AMQP message received in '" +:+ name chan +:+ "' queue. Processing...");
     AddActive (id chan) [msgId];
     Deserialize (content msg);
     CallHandler (id chan) v msg;
     Ack msg;
     RemoveActive (id chan) [msgId]].
Proof.
  intros Hu Hp Hd Hh msgId. subst msgId.
  unfold createConsumerHandler, messageId. rewrite Hu, Hp.
  run. rewrite Hd. run. rewrite Hh. by run.
Qed.

Lemma handler_success_witness :
  result (createConsumerHandler Scenario.working Sample.order) Sample.online
  = Return tt /\
  brokerCalls
    (events (createConsumerHandler Scenario.working Sample.order)
       Sample.online)
  = [Ack Sample.order].
Proof.
  destruct (handler_success Scenario.working Sample.order
              {| correlationId := None;
                 headers := Some {[ "x-trace" := HString "t1" ]} |}
              (VString "{}") Sample.online)
    as [Hres Hev]; [reflexivity | reflexivity | reflexivity | reflexivity |].
  split; [exact Hres |]. rewrite Hev. reflexivity.
Defined.

(** X2. A message that is processed is settled at most once: the callback
    either returns after exactly one of an acknowledgement, a rejection
    without requeue, or a publication of the original body followed by an
    acknowledgement; or it does not return and has made no call that
    settles or forwards the message. *)
Theorem handler_outcomes (chan : Channel) (msg : Message) (p : Properties)
    (s : Adapter) :
  unsubscribing chan = false ->
  properties msg = Some p ->
  let w := events (createConsumerHandler chan msg) s in
  (result (createConsumerHandler chan msg) s = Return tt /\
   (brokerCalls w = [Ack msg] \/
    brokerCalls w = [Nack msg false false] \/
    exists exchange routing options,
      brokerCalls w =
        [Publish exchange routing (VBuffer (content msg)) options; Ack msg]))
  \/
  (result (createConsumerHandler chan msg) s <> Return tt /\
   brokerCalls w = []).
Proof.
  intros Hu Hp w. subst w.
  unfold createConsumerHandler, messageId. rewrite Hu, Hp.
  handler_cases;
    first
      [ right; split; [discriminate | reflexivity]
      | left; split; [reflexivity |];
        first [ left; reflexivity
              | right; left; reflexivity
              | right; right; do 3 eexists; reflexivity ] ].
Qed.

Lemma handler_outcomes_witness :
  let chan := Sample.failing Sample.boom (Some 3) true in
  let w := events (createConsumerHandler chan Sample.order) Sample.online in
  (result (createConsumerHandler chan Sample.order) Sample.online = Return tt /\
   (brokerCalls w = [Ack Sample.order] \/
    brokerCalls w = [Nack Sample.order false false] \/
    exists exchange routing options,
      brokerCalls w =
        [Publish exchange routing (VBuffer (content Sample.order)) options;
         Ack Sample.order]))
  \/
  (result (createConsumerHandler chan Sample.order) Sample.online <> Return tt /\
   brokerCalls w = []).
Proof.
  exact (handler_outcomes (Sample.failing Sample.boom (Some 3) true)
           Sample.order
           {| correlationId := None;
              headers := Some {[ "x-trace" := HString "t1" ]} |}
           Sample.online eq_refl eq_refl).
Defined.

(** X3. The retry counter is incremented once for each rejection and the
    dead-lettering counter once for each publication to the dead-letter
    exchange; the error counter is incremented at most once per delivery,
    and once whenever the message is rejected or dead-lettered. *)
Theorem handler_metrics (chan : Channel) (msg : Message) (p : Properties)
    (s : Adapter) :
  unsubscribing chan = false ->
  properties msg = Some p ->
  let w := events (createConsumerHandler chan msg) s in
  countMetric C.METRIC_CHANNELS_MESSAGES_RETRIES_TOTAL w
  = length (List.filter isNack w) /\
  countMetric C.METRIC_CHANNELS_MESSAGES_DEAD_LETTERING_TOTAL w
  = length (List.filter isPublish w) /\
  (length (List.filter isNack w) + length (List.filter isPublish w)
   <= countMetric C.METRIC_CHANNELS_MESSAGES_ERRORS_TOTAL w <= 1)%nat.
Proof.
  intros Hu Hp w. subst w.
  unfold createConsumerHandler, messageId. rewrite Hu, Hp.
  handler_cases; (split; [reflexivity |]); (split; [reflexivity |]);
    cbn; lia.
Qed.

Lemma handler_metrics_witness :
  let chan := Sample.failing Sample.boom (Some 3) true in
  let w := events (createConsumerHandler chan Sample.order) Sample.online in
  countMetric C.METRIC_CHANNELS_MESSAGES_RETRIES_TOTAL w
  = length (List.filter isNack w) /\
  countMetric C.METRIC_CHANNELS_MESSAGES_DEAD_LETTERING_TOTAL w
  = length (List.filter isPublish w) /\
  (length (List.filter isNack w) + length (List.filter isPublish w)
   <= countMetric C.METRIC_CHANNELS_MESSAGES_ERRORS_TOTAL w <= 1)%nat.
Proof.
  exact (handler_metrics (Sample.failing Sample.boom (Some 3) true)
           Sample.order
           {| correlationId := None;
              headers := Some {[ "x-trace" := HString "t1" ]} |}
           Sample.online eq_refl eq_refl).
Defined.

(** X4. For a channel without retries ([maxRetries] zero or missing), a
    failure of the handler settles the message at the first delivery,
    whatever the class of the error and whatever the headers of the
    message: it is published to the dead-letter exchange and acknowledged
    when dead-lettering is enabled, and only acknowledged otherwise. *)
Theorem no_retries_configured
    (chan : Channel) (msg : Message) (p : Properties) (v : Value)
    (err : JsError) (dl : DeadLettering) (s : Adapter) :
  unsubscribing chan = false ->
  properties msg = Some p ->
  deserialize (serializer s) (content msg) = Return v ->
  handler chan v msg = Throw err ->
  Js.truthy_num (maxRetries chan) = false ->
  deadLettering chan = Some dl ->
  let w := events (createConsumerHandler chan msg) s in
  result (createConsumerHandler chan msg) s = Return tt /\
  brokerCalls w =
    (if Js.truthy_bool (enabled dl) then
       [Publish (Js.or_str (exchangeName dl) "") (queueName dl)
          (VBuffer (content msg))
          (onlyHeaders (deadLetterHeaders chan msg err));
        Ack msg]
     else [Ack msg]).
Proof.
  intros Hu Hp Hd Hh Hno Hdl w. subst w.
  unfold createConsumerHandler, messageId. rewrite Hu, Hp.
  run. rewrite Hd. run. rewrite Hh. run. rewrite Hno.
  unfold moveToDeadLetter, deadLetteringOf. rewrite Hdl.
  destruct (instanceof err MoleculerError
            && negb (instanceof err MoleculerRetryableError));
    run; destruct (Js.truthy_bool (enabled dl)); run; done.
Qed.

Lemma no_retries_configured_witness :
  brokerCalls
    (events (createConsumerHandler (Sample.failing Sample.boom None false)
               Scenario.bare) Sample.online)
  = [Ack Scenario.bare].
Proof.
  exact (proj2
           (no_retries_configured (Sample.failing Sample.boom None false)
              Scenario.bare {| correlationId := None; headers := None |}
              (VString "{}") Sample.boom (Sample.deadLetters false)
              Sample.online eq_refl eq_refl eq_refl eq_refl eq_refl eq_refl)).
Defined.

(** X5. A payload that cannot be decoded is treated as a failure of the
    handler with the same error would be, except that the handler is not
    called: same result, same calls on the broker. *)
Theorem deserialize_failure_like_handler_failure
    (chan : Channel) (msg : Message) (p : Properties) (v : Value)
    (err : JsError) (s s' : Adapter) :
  unsubscribing chan = false ->
  properties msg = Some p ->
  deserialize (serializer s) (content msg) = Throw err ->
  deserialize (serializer s') (content msg) = Return v ->
  handler chan v msg = Throw err ->
  List.existsb isCallHandler (events (createConsumerHandler chan msg) s)
  = false /\
  result (createConsumerHandler chan msg) s
  = result (createConsumerHandler chan msg) s' /\
  brokerCalls (events (createConsumerHandler chan msg) s)
  = brokerCalls (events (createConsumerHandler chan msg) s').
Proof.
  intros Hu Hp Hd Hd' Hh.
  unfold createConsumerHandler, messageId. rewrite Hu, Hp.
  run. rewrite Hd, Hd'. run. rewrite Hh.
  unfold moveToDeadLetter, deadLetteringOf, xDeathOf, firstCount.
  repeat (run; split_match); run; done.
Qed.

Lemma deserialize_failure_like_handler_failure_witness :
  brokerCalls
    (events (createConsumerHandler (Sample.failing Sample.boom (Some 3) true)
               Sample.order) Scenario.garbled)
  = brokerCalls
      (events (createConsumerHandler (Sample.failing Sample.boom (Some 3) true)
                 Sample.order) Sample.online).
Proof.
  exact (proj2 (proj2
           (deserialize_failure_like_handler_failure
              (Sample.failing Sample.boom (Some 3) true) Sample.order
              {| correlationId := None;
                 headers := Some {[ "x-trace" := HString "t1" ]} |}
              (VString "{}") Sample.boom Scenario.garbled Sample.online
              eq_refl eq_refl eq_refl eq_refl eq_refl))).
Defined.

(** X6. With a negative [maxRetries] the budget is never used up: a
    failure with an error that may be retried rejects the message without
    requeue at every delivery, whatever its death count. *)
Theorem negative_maxRetries_always_rejects
    (chan : Channel) (msg : Message) (p : Properties) (h : Headers)
    (v : Value) (err : JsError) (N : Z) (count : Js.Num) (s : Adapter) :
  unsubscribing chan = false ->
  properties msg = Some p ->
  headers p = Some h ->
  firstCount (h !! C.HEADER_DEAD_LETTER) = Return count ->
  deserialize (serializer s) (content msg) = Return v ->
  handler chan v msg = Throw err ->
  instanceof err MoleculerError && negb (instanceof err MoleculerRetryableError)
    = false ->
  maxRetries chan = Some N ->
  N < 0 ->
  brokerCalls (events (createConsumerHandler chan msg) s)
  = [Nack msg false false].
Proof.
  intros Hu Hp Hh Hc Hd Hth Hcls HN Hneg.
  unfold createConsumerHandler, messageId, xDeathOf. rewrite Hu, Hp.
  run. rewrite Hd. run. rewrite Hth. run. rewrite Hcls. run.
  rewrite HN. unfold Js.truthy_num, Js.gt0.
  replace (N =? 0) with false by (symmetry; apply Z.eqb_neq; lia).
  replace (0 <? N) with false by (symmetry; apply Z.ltb_ge; lia).
  run. rewrite Hh. run. rewrite Hc. by run.
Qed.

Lemma negative_maxRetries_always_rejects_witness :
  brokerCalls
    (events (createConsumerHandler
               (Sample.failing Sample.boom (Some (-1)) true) Sample.order)
       Sample.online)
  = [Nack Sample.order false false].
Proof.
  apply (negative_maxRetries_always_rejects
           (Sample.failing Sample.boom (Some (-1)) true) Sample.order
           {| correlationId := None;
              headers := Some {[ "x-trace" := HString "t1" ]} |}
           {[ "x-trace" := HString "t1" ]} (VString "{}") Sample.boom (-1)
           (Js.Int 0) Sample.online);
    first [reflexivity | lia].
Defined.

(** X7. A message whose properties carry no headers cannot be retried:
    when its handler fails with an error that may be retried, on a channel
    with retries, the callback deregisters the message, counts the error
    and then throws a [TypeError] at the reading of the death history; the
    message is neither acknowledged nor rejected. *)
Theorem headerless_message_crashes_retry
    (chan : Channel) (msg : Message) (p : Properties) (v : Value)
    (err : JsError) (s : Adapter) :
  unsubscribing chan = false ->
  properties msg = Some p ->
  headers p = None ->
  deserialize (serializer s) (content msg) = Return v ->
  handler chan v msg = Throw err ->
  instanceof err MoleculerError && negb (instanceof err MoleculerRetryableError)
    = false ->
  Js.truthy_num (maxRetries chan) = true ->
  let w := events (createConsumerHandler chan msg) s in
  (exists text, result (createConsumerHandler chan msg) s
                = Throw (new TypeError text)) /\
  brokerCalls w = [] /\
  countMetric C.METRIC_CHANNELS_MESSAGES_ERRORS_TOTAL w = 1%nat /\
  Js.or_str (correlationId p)
    (consumerTag (fields msg) +:+ ":" +:+ pretty (deliveryTag (fields msg)))
  ∉ activeOf (id chan) (final (createConsumerHandler chan msg) s).
Proof.
  intros Hu Hp Hh Hd Hth Hcls Hmax w. subst w.
  unfold createConsumerHandler, messageId, xDeathOf. rewrite Hu, Hp.
  run. rewrite Hd. run. rewrite Hth. run. rewrite Hcls. run.
  rewrite Hmax. run. rewrite Hh. run.
  split; [by eexists |]. split; [done |]. split; [done |].
  apply deregistered.
Qed.

Lemma headerless_message_crashes_retry_witness :
  brokerCalls
    (events (createConsumerHandler (Sample.failing Sample.boom (Some 3) true)
               Scenario.bare) Sample.online)
  = [].
Proof.
  exact (proj1 (proj2
           (headerless_message_crashes_retry
              (Sample.failing Sample.boom (Some 3) true) Scenario.bare
              {| correlationId := None; headers := None |} (VString "{}")
              Sample.boom Sample.online
              eq_refl eq_refl eq_refl eq_refl eq_refl eq_refl eq_refl))).
Defined.

(** ** Frames *)

Section Frame.

Variable R : Adapter -> Adapter -> Prop.
Hypothesis R_refl : forall s, R s s.
Hypothesis R_trans : forall s1 s2 s3, R s1 s2 -> R s2 s3 -> R s1 s3.

Lemma respects_ret {A} (a : A) : respects R (ret a).
Proof. intros s. apply R_refl. Qed.

Lemma respects_throw {A} (err : JsError) : respects R (@throw A err).
Proof. intros s. apply R_refl. Qed.

Lemma respects_emit (e : Event) : respects R (emit e).
Proof. intros s. apply R_refl. Qed.

Lemma respects_get : respects R get.
Proof. intros s. apply R_refl. Qed.

Lemma respects_lift {A} (c : Completion A) : respects R (lift c).
Proof. intros s. apply R_refl. Qed.

Lemma respects_modify (f : Adapter -> Adapter) :
  (forall s, R s (f s)) -> respects R (modify f).
Proof. intros Hf s. apply Hf. Qed.

Lemma respects_bind {A B} (m : Eff A) (k : A -> Eff B) :
  respects R m -> (forall a, respects R (k a)) -> respects R (m ≫= k).
Proof.
  intros Hm Hk s. unfold respects, final in *. specialize (Hm s).
  cbv beta iota zeta delta [mbind Eff_bind bind].
  destruct (m s) as [[[a | err |] s1] w1]; cbn [fst snd] in *; try done.
  specialize (Hk a s1). destruct (k a s1) as [[r s2] w2]. cbn [fst snd] in *.
  by eapply R_trans.
Qed.

Lemma respects_tryCatch {A} (m : Eff A) (h : JsError -> Eff A) :
  respects R m -> (forall err, respects R (h err)) ->
  respects R (tryCatch m h).
Proof.
  intros Hm Hh s. unfold respects, final, tryCatch in *. specialize (Hm s).
  destruct (m s) as [[[a | err |] s1] w1]; cbn [fst snd] in *; try done.
  specialize (Hh err s1). destruct (h err s1) as [[r s2] w2].
  cbn [fst snd] in *. by eapply R_trans.
Qed.

End Frame.

Section Emits.

Variable P : Event -> bool.

Lemma emits_ret {A} (a : A) : emitsOnly P (ret a).
Proof. by intros s. Qed.

Lemma emits_throw {A} (err : JsError) : emitsOnly P (@throw A err).
Proof. by intros s. Qed.

Lemma emits_emit (e : Event) : P e = true -> emitsOnly P (emit e).
Proof. intros He s. cbn. by rewrite He. Qed.

Lemma emits_get : emitsOnly P get.
Proof. by intros s. Qed.

Lemma emits_lift {A} (c : Completion A) : emitsOnly P (lift c).
Proof. by intros s. Qed.

Lemma emits_modify (f : Adapter -> Adapter) : emitsOnly P (modify f).
Proof. by intros s. Qed.

Lemma emits_bind {A B} (m : Eff A) (k : A -> Eff B) :
  emitsOnly P m -> (forall a, emitsOnly P (k a)) -> emitsOnly P (m ≫= k).
Proof.
  intros Hm Hk s. unfold emitsOnly, events in *. specialize (Hm s).
  cbv beta iota zeta delta [mbind Eff_bind bind].
  destruct (m s) as [[[a | err |] s1] w1]; cbn [fst snd] in *; try done.
  specialize (Hk a s1). destruct (k a s1) as [[r s2] w2]. cbn [fst snd] in *.
  rewrite forallb_app, Hm, Hk. done.
Qed.

Lemma emits_tryCatch {A} (m : Eff A) (h : JsError -> Eff A) :
  emitsOnly P m -> (forall err, emitsOnly P (h err)) ->
  emitsOnly P (tryCatch m h).
Proof.
  intros Hm Hh s. unfold emitsOnly, events, tryCatch in *. specialize (Hm s).
  destruct (m s) as [[[a | err |] s1] w1]; cbn [fst snd] in *; try done.
  specialize (Hh err s1). destruct (h err s1) as [[r s2] w2].
  cbn [fst snd] in *. rewrite forallb_app, Hm, Hh. done.
Qed.

End Emits.

Lemma run_bind {A B} (m : Eff A) (k : A -> Eff B) (s : Adapter) :
  (m ≫= k) s =
    match m s with
    | (Return a, s1, w1) => let '(r, s2, w2) := k a s1 in (r, s2, w1 ++ w2)
    | (Throw err, s1, w1) => (Throw err, s1, w1)
    | (Pending, s1, w1) => (Pending, s1, w1)
    end.
Proof. reflexivity. Qed.

Lemma carriesOn_refl (s : Adapter) : carriesOn s s.
Proof. by repeat split. Qed.

Lemma carriesOn_trans (s1 s2 s3 : Adapter) :
  carriesOn s1 s2 -> carriesOn s2 s3 -> carriesOn s1 s3.
Proof.
  intros (?&?&?&?&?&?&?&?) (?&?&?&?&?&?&?&?).
  repeat split; try congruence. set_solver.
Qed.

Lemma sameTable_refl (s : Adapter) : sameTable s s.
Proof. done. Qed.

Lemma sameTable_trans (s1 s2 s3 : Adapter) :
  sameTable s1 s2 -> sameTable s2 s3 -> sameTable s1 s3.
Proof. unfold sameTable. congruence. Qed.

Ltac frame_step R_refl R_trans :=
  first
    [ apply (respects_ret _ R_refl) | apply (respects_throw _ R_refl)
    | apply (respects_emit _ R_refl) | apply (respects_get _ R_refl)
    | apply (respects_lift _ R_refl)
    | apply (respects_bind _ R_trans); [| intros ?]
    | apply (respects_tryCatch _ R_trans); [| intros ?]
    | progress cbv zeta
    | match goal with
      | |- respects _ (if ?c then _ else _) => destruct c
      | |- respects _ (match ?x with _ => _ end) => destruct x
      end ].

Ltac carries :=
  repeat first
    [ frame_step carriesOn_refl carriesOn_trans
    | apply respects_modify; intros ?; unfold carriesOn;
      cbn [opts serializer addPrefixTopic stopping connected connectAttempt
           connectionCount assertedExchanges set_activeMessages
           set_writeBufferReady set_assertedExchanges set_subscriptions];
      repeat split; try done; set_solver ].

Ltac same_table :=
  repeat first
    [ frame_step sameTable_refl sameTable_trans
    | apply respects_modify; intros ?; reflexivity ].

Ltac emits :=
  repeat first
    [ apply emits_ret | apply emits_throw | apply emits_get | apply emits_lift
    | apply emits_modify
    | apply emits_emit; reflexivity
    | apply emits_bind; [| intros ?]
    | apply emits_tryCatch; [| intros ?]
    | progress cbv zeta
    | match goal with
      | |- emitsOnly _ (if ?c then _ else _) => destruct c
      | |- emitsOnly _ (match ?x with _ => _ end) => destruct x
      end ].

Lemma carriesOn_handler (chan : Channel) (msg : Message) :
  respects carriesOn (createConsumerHandler chan msg).
Proof.
  unfold createConsumerHandler, moveToDeadLetter, logger, channel_ack,
    channel_nack, metricsIncrement, addChannelActiveMessages,
    removeChannelActiveMessages.
  carries.
Qed.

Lemma carriesOn_subscribe (chan : Channel) (tag : string) :
  respects carriesOn (subscribe chan tag).
Proof.
  unfold subscribe, logger, when, initChannelActiveMessages. carries.
  all: apply respects_modify; intros s0;
    destruct (activeMessages s0 !! _); by repeat split.
Qed.

Lemma carriesOn_checkCondition (endTime interval : Z) (later : list Turn) :
  forall clock,
    respects carriesOn
      (checkCondition isWriteBufferReady endTime interval clock later).
Proof.
  induction later as [| t later IH]; intros clock; cbn [checkCondition];
    unfold isWriteBufferReady; carries.
Qed.

Lemma carriesOn_publish (channelName : string) (payload : Value)
    (options : PublishOpts) (world : World) :
  respects carriesOn (publish channelName payload options world).
Proof.
  unfold publish, logger, when, channel_publish, poll. carries;
    try apply carriesOn_checkCondition; unfold isWriteBufferReady; carries.
Qed.

Lemma sameTable_handler (chan : Channel) (msg : Message) :
  respects sameTable (createConsumerHandler chan msg).
Proof.
  unfold createConsumerHandler, moveToDeadLetter, logger, channel_ack,
    channel_nack, metricsIncrement, addChannelActiveMessages,
    removeChannelActiveMessages.
  same_table.
Qed.

Lemma sameTable_checkCondition (endTime interval : Z) (later : list Turn) :
  forall clock,
    respects sameTable
      (checkCondition isWriteBufferReady endTime interval clock later).
Proof.
  induction later as [| t later IH]; intros clock; cbn [checkCondition];
    unfold isWriteBufferReady; same_table; apply IH.
Qed.

Lemma sameTable_publish (channelName : string) (payload : Value)
    (options : PublishOpts) (world : World) :
  respects sameTable (publish channelName payload options world).
Proof.
  unfold publish, logger, when, channel_publish, poll. same_table;
    try apply sameTable_checkCondition; unfold isWriteBufferReady; same_table.
Qed.

Lemma subscribe_emits_declarations (chan : Channel) (tag : string) :
  emitsOnly isDeclaration (subscribe chan tag).
Proof.
  unfold subscribe, logger, when, initChannelActiveMessages. emits.
Qed.

Lemma declarations_apart (w : list Event) :
  forallb isDeclaration w = true ->
  List.filter isTimer w = [] /\ connectedTo w = [] /\ brokerCalls w = [].
Proof.
  induction w as [| e w IH]; [done |]. cbn [forallb].
  intros [He Hw]%andb_prop. destruct (IH Hw) as (Ht & Hc & Hb).
  unfold connectedTo, brokerCalls in *.
  destruct e; try discriminate; cbn; by rewrite ?Ht, ?Hc, ?Hb.
Qed.

(** ** Waiting with [poll] *)

Lemma checkCondition_step (endTime interval clock : Z) (later : list Turn)
    (s : Adapter) :
  checkCondition isWriteBufferReady endTime interval clock later s =
    if writeBufferReady s then (Return tt, s, [])
    else if clock <? endTime then
      match later with
      | [] => (Pending, s, [SetTimeout interval])
      | t :: rest =>
          let '(r, s2, w2) :=
            checkCondition isWriteBufferReady endTime interval (now t) rest
              (set_writeBufferReady (ready t) s) in
          (r, s2, SetTimeout interval :: w2)
      end
    else (Throw (new Error "timed out"), s, []).
Proof.
  destruct later as [| t rest]; cbn [checkCondition]; run;
    destruct (writeBufferReady s); run; try done;
    destruct (clock <? endTime); run; try done.
  by destruct (checkCondition _ endTime interval (now t) rest
                 (set_writeBufferReady (ready t) s)) as [[r s2] w2].
Qed.

(** X8. What a wait for the write buffer leaves behind, by outcome: when
    [poll] returns the buffer is ready; when it throws the buffer is not
    ready and a check has read the clock at or past the deadline; when it
    stays pending the buffer is not ready and every check has read the
    clock before the deadline. *)
Theorem poll_sound (timeout interval : option Z) (sched : Schedule)
    (s : Adapter) :
  let endTime := endTimeOf timeout sched in
  let clocks := firstCheck sched :: map now (turns sched) in
  let s' := final (poll isWriteBufferReady timeout interval sched) s in
  match result (poll isWriteBufferReady timeout interval sched) s with
  | Return _ => writeBufferReady s' = true
  | Throw _ =>
      writeBufferReady s' = false /\ Exists (fun c => endTime <= c) clocks
  | Pending =>
      writeBufferReady s' = false /\ Forall (fun c => c < endTime) clocks
  end.
Proof.
  intros endTime clocks s'. subst clocks s'. unfold poll. fold endTime.
  generalize (if Js.truthy_num interval then default 0 interval else 1).
  intros itv. generalize (firstCheck sched) as clock. revert s.
  unfold result, final.
  induction (turns sched) as [| t later IH]; intros s clock;
    rewrite checkCondition_step;
    destruct (writeBufferReady s) eqn:Hs; cbn [fst snd map]; try done;
    destruct (Z.ltb_spec clock endTime) as [Hlt | Hge]; cbn [fst snd].
  - split; [done |]. by constructor.
  - split; [done |]. by constructor.
  - specialize (IH (set_writeBufferReady (ready t) s) (now t)).
    destruct (checkCondition isWriteBufferReady endTime itv (now t) later
                (set_writeBufferReady (ready t) s)) as [[[[] | err |] s1] w1];
      cbn [fst snd] in *.
    + exact IH.
    + destruct IH as [? ?]. split; [done |]. by apply Exists_cons_tl.
    + destruct IH as [? ?]. split; [done |]. by constructor.
  - split; [done |]. by constructor.
Qed.

(** X9. The first check of [poll] is made at once: with the buffer ready
    [poll] returns without setting a timer or touching the adapter; with
    the buffer full and the deadline already reached at that check, it
    throws an [Error] without setting a timer or touching the adapter. *)
Theorem poll_first_check (timeout interval : option Z) (sched : Schedule)
    (s : Adapter) :
  (writeBufferReady s = true ->
   poll isWriteBufferReady timeout interval sched s = (Return tt, s, [])) /\
  (writeBufferReady s = false ->
   endTimeOf timeout sched <= firstCheck sched ->
   exists text,
     poll isWriteBufferReady timeout interval sched s
     = (Throw (new Error text), s, [])).
Proof.
  split.
  - intros Hs. unfold poll. destruct (turns sched); cbn [checkCondition]; run;
      rewrite Hs; by run.
  - intros Hs Hlate. unfold poll.
    destruct (turns sched); cbn [checkCondition]; run; rewrite Hs; run;
      replace (firstCheck sched <? endTimeOf timeout sched) with false
        by (symmetry; apply Z.ltb_ge; lia); run; by eexists.
Qed.

Lemma poll_first_check_witness :
  poll isWriteBufferReady (Some 10000) (Some 1) (schedule Sample.saturated)
    Sample.online
  = (Return tt, Sample.online, []) /\
  exists text,
    poll isWriteBufferReady (Some (-1)) (Some 1) (schedule Sample.saturated)
      (set_writeBufferReady false Sample.online)
    = (Throw (new Error text), set_writeBufferReady false Sample.online, []).
Proof.
  split.
  - exact (proj1 (poll_first_check (Some 10000) (Some 1)
                    (schedule Sample.saturated) Sample.online) eq_refl).
  - apply (proj2 (poll_first_check (Some (-1)) (Some 1)
                    (schedule Sample.saturated)
                    (set_writeBufferReady false Sample.online)));
      [reflexivity | vm_compute; discriminate].
Defined.

Lemma poll_trace (timeout interval : option Z) (sched : Schedule)
    (s : Adapter) :
  exists n itv,
    events (poll isWriteBufferReady timeout interval sched) s
    = replicate n (SetTimeout itv) /\
  carriesOn s (final (poll isWriteBufferReady timeout interval sched) s).
Proof.
  unfold poll.
  generalize (if Js.truthy_num interval then default 0 interval else 1).
  intros itv. generalize (firstCheck sched) as clock. revert s.
  generalize (endTimeOf timeout sched) as endTime.
  intros endTime s clock.
  assert (Hev : exists n,
    events (checkCondition isWriteBufferReady endTime itv clock (turns sched)) s
    = replicate n (SetTimeout itv)).
  { revert s clock. unfold events.
    induction (turns sched) as [| t later IH]; intros s clock;
      rewrite checkCondition_step;
      destruct (writeBufferReady s); try (by exists 0%nat);
      destruct (clock <? endTime); try (by exists 0%nat).
    - by exists 1%nat.
    - destruct (IH (set_writeBufferReady (ready t) s) (now t)) as [n Hn].
      destruct (checkCondition isWriteBufferReady endTime itv (now t) later
                  (set_writeBufferReady (ready t) s)) as [[r s2] w2].
      cbn [snd] in *. exists (S n). by rewrite Hn. }
  destruct Hev as [n Hn]. exists n, itv. split; [exact Hn |].
  apply carriesOn_checkCondition.
Qed.

(** ** More on [publish] *)

(** X10. On a connected adapter whose write buffer is ready, [publish]
    hands the body (the payload itself when [raw], else its serialization)
    to the channel at once, under the channel name and the routing key of
    the call or the empty string, with the merged options; it sets no
    timer, and the flag of the write buffer takes the value that the send
    returns. *)
Theorem publish_ready_sends
    (channelName : string) (payload : Value) (options : PublishOpts)
    (world : World) (s : Adapter) (data : Value) (sent : bool) :
  stopping s = false ->
  connected s = true ->
  writeBufferReady s = true ->
  dataOf options s payload = Return data ->
  assertExchangeSettles world = Return tt ->
  publishReturns world = Return sent ->
  result (publish channelName payload options world) s = Return tt /\
  brokerCalls (events (publish channelName payload options world) s)
  = [Publish channelName (Some (Js.or_str (routingKey options) "")) data
       (messageOptionsOf options s)] /\
  List.existsb isTimer (events (publish channelName payload options world) s)
  = false /\
  writeBufferReady (final (publish channelName payload options world) s)
  = sent.
Proof.
  intros Hs Hc Hw Hdata Hassert Hsent. unfold dataOf in Hdata.
  unfold publish. run. rewrite Hs, Hc. run.
  destruct (raw options);
    [ injection Hdata as <-
    | destruct (serialize (serializer s) payload) as [b | |]; try done;
      injection Hdata as <- ];
    run;
    (match goal with
     | |- context [if ?c then _ else _] => destruct c
     end); run; rewrite ?Hassert; run; rewrite Hw; run; rewrite Hsent;
    by run.
Qed.

Lemma publish_ready_sends_witness :
  brokerCalls
    (events (publish "orders" (VString "x") Sample.plain Sample.draining)
       Sample.online)
  = [Publish "orders" (Some (Js.or_str (routingKey Sample.plain) ""))
       (VBuffer "{}") (messageOptionsOf Sample.plain Sample.online)].
Proof.
  exact (proj1 (proj2
           (publish_ready_sends "orders" (VString "x") Sample.plain
              Sample.draining Sample.online (VBuffer "{}") true
              eq_refl eq_refl eq_refl eq_refl eq_refl eq_refl))).
Defined.

(** X11. When the serializer rejects the payload, [publish] throws the
    error of the serializer and has touched neither the adapter nor the
    broker: nothing is asserted and nothing is sent. *)
Theorem publish_serializer_fails
    (channelName : string) (payload : Value) (options : PublishOpts)
    (world : World) (s : Adapter) (err : JsError) :
  stopping s = false ->
  connected s = true ->
  raw options = false ->
  serialize (serializer s) payload = Throw err ->
  result (publish channelName payload options world) s = Throw err /\
  final (publish channelName payload options world) s = s /\
  brokerCalls (events (publish channelName payload options world) s) = [] /\
  exchangesAsserted "fanout"
    (events (publish channelName payload options world) s) = [].
Proof.
  intros Hs Hc Hraw Hser. unfold publish. run. rewrite Hs, Hc. run.
  rewrite Hraw. run. rewrite Hser. by run.
Qed.

Lemma publish_serializer_fails_witness :
  result (publish "orders" (VString "x") Scenario.asserting Sample.draining)
    Scenario.garbled
  = Throw Sample.boom.
Proof.
  exact (proj1
           (publish_serializer_fails "orders" (VString "x") Scenario.asserting
              Sample.draining Scenario.garbled Sample.boom
              eq_refl eq_refl eq_refl eq_refl)).
Defined.

Lemma timers_assert_nothing (kind : string) (n : nat) (ms : Z) :
  exchangesAsserted kind (replicate n (SetTimeout ms)) = [].
Proof. induction n as [| n IH]; [done | exact IH]. Qed.

(** In the branch of [publish] that waits for the buffer, fold the
    condition back and split the outcome of [poll]. *)
Ltac split_poll :=
  match goal with
  | |- context [poll ?f ?t ?i ?sc ?st] =>
      change f with isWriteBufferReady;
      let n := fresh "n" in
      let itv := fresh "itv" in
      let Hev := fresh "Hev" in
      let Hcarry := fresh "Hcarry" in
      destruct (poll_trace t i sc st) as (n & itv & Hev & Hcarry);
      unfold events, final in Hev, Hcarry;
      destruct (poll isWriteBufferReady t i sc st) as [[[[] | ? |] ?] ?];
      cbn [fst snd] in Hev, Hcarry; subst
  end.

(** Rewrite the timers out of a list of asserted exchanges. *)
Ltac drop_timers kind :=
  unfold exchangesAsserted; cbn -[replicate]; rewrite ?omap_app;
  try (match goal with
       | |- context [replicate ?n (SetTimeout ?i)] =>
           let Ht := fresh in
           pose proof (timers_assert_nothing kind n i) as Ht;
           unfold exchangesAsserted in Ht; rewrite Ht
       end).

(** A channel whose exchange is known to be asserted is not asserted
    again, whatever else happens to the call. *)
Lemma publish_known_exchange
    (channelName : string) (payload : Value) (options : PublishOpts)
    (world : World) (s : Adapter) (kind : string) :
  channelName ∈ assertedExchanges s ->
  exchangesAsserted kind (events (publish channelName payload options world) s)
  = [].
Proof.
  intros Hknown. unfold publish. run.
  destruct (stopping s); run; [done |].
  destruct (connected s); run; [| done].
  rewrite (bool_decide_eq_true_2 _ Hknown). rewrite andb_false_r. run.
  destruct (raw options); run;
    try (destruct (serialize (serializer s) payload) as [body | |]; run;
         try done);
    (destruct (writeBufferReady s) eqn:Hw; run;
     [ destruct (publishReturns world) as [? | |]; run; done |]);
    split_poll; run; try done;
    try (destruct (publishReturns world) as [? | |]; run);
    drop_timers kind; reflexivity.
Qed.

(** X12. [publish] declares the exchange of the channel at most once: when
    the declaration is enabled and the exchange is not known, the fanout
    exchange is declared once and is known from then on, whatever the
    outcome of the declaration and of the send; when the exchange is known,
    or the declaration is not enabled, nothing is declared. *)
Theorem publish_asserts_once
    (channelName : string) (payload : Value) (options : PublishOpts)
    (world : World) (s : Adapter) (data : Value) :
  stopping s = false ->
  connected s = true ->
  dataOf options s payload = Return data ->
  let w := events (publish channelName payload options world) s in
  let s' := final (publish channelName payload options world) s in
  (assertsExchange options s = true -> channelName ∉ assertedExchanges s ->
   exchangesAsserted "fanout" w = [channelName] /\
   channelName ∈ assertedExchanges s') /\
  (assertsExchange options s = true -> channelName ∈ assertedExchanges s ->
   exchangesAsserted "fanout" w = []) /\
  (assertsExchange options s = false -> exchangesAsserted "fanout" w = []).
Proof.
  intros Hs Hc Hdata w s'. subst w s'. unfold dataOf in Hdata.
  unfold assertsExchange.
  assert (Hgo : forall b : bool,
    (defaultsDeep_publishAssertExchange (publishAssertExchange options)
       (ao_publishAssertExchange (opt_amqp (opts s)))).1
    && negb (bool_decide (channelName ∈ assertedExchanges s)) = b ->
    exchangesAsserted "fanout"
      (events (publish channelName payload options world) s)
    = (if b then [channelName] else []) /\
    (b = true ->
     channelName ∈
       assertedExchanges (final (publish channelName payload options world) s))).
  { intros b Hb. unfold publish. run. rewrite Hs, Hc. run.
    destruct (raw options);
      [ injection Hdata as <-
      | destruct (serialize (serializer s) payload) as [body | |]; try done;
        injection Hdata as <- ];
      run;
      (match goal with
       | |- context [if ?c then _ else _] =>
           change c with
             ((defaultsDeep_publishAssertExchange
                 (publishAssertExchange options)
                 (ao_publishAssertExchange (opt_amqp (opts s)))).1
              && negb (bool_decide (channelName ∈ assertedExchanges s)))
       end);
      rewrite Hb; destruct b; run;
      try (destruct (assertExchangeSettles world) as [[] | |]; run);
      try (destruct (writeBufferReady s); run);
      try split_poll;
      try (destruct (publishReturns world) as [? | |]; run);
      (split; [| try done; intros _; try (destruct Hcarry as (_&_&_&_&_&_&_&Hsub);
                 cbn [assertedExchanges set_assertedExchanges set_writeBufferReady] in *);
                 set_solver]);
      drop_timers "fanout"; reflexivity. }
  split; [| split].
  - intros Hon Hnew. destruct (Hgo true) as [Hev Hin].
    { rewrite Hon. by rewrite bool_decide_eq_false_2. }
    split; [exact Hev | by apply Hin].
  - intros Hon Hold. apply (Hgo false).
    rewrite Hon. by rewrite bool_decide_eq_true_2.
  - intros Hoff. apply (Hgo false). by rewrite Hoff.
Qed.

Lemma publish_asserts_once_witness :
  exchangesAsserted "fanout"
    (events (publish "orders" (VString "x") Scenario.asserting Sample.draining)
       Sample.online)
  = ["orders"] /\
  exchangesAsserted "fanout"
    (events (publish "orders" (VString "x") Sample.plain Sample.draining)
       Sample.online)
  = [].
Proof.
  split.
  - apply (proj1 (publish_asserts_once "orders" (VString "x")
                    Scenario.asserting Sample.draining Sample.online
                    (VBuffer "{}") eq_refl eq_refl eq_refl));
      [reflexivity | apply not_elem_of_empty].
  - exact (proj2 (proj2 (publish_asserts_once "orders" (VString "x")
                           Sample.plain Sample.draining Sample.online
                           (VBuffer "{}") eq_refl eq_refl eq_refl))
             eq_refl).
Defined.

(** X13. A declaration that the broker rejects is remembered as made:
    [publish] throws the error of the broker and sends nothing, and no
    later [publish] to the channel declares the exchange. *)
Theorem publish_remembers_failed_assertion
    (channelName : string) (payload : Value) (options : PublishOpts)
    (world : World) (s : Adapter) (data : Value) (err : JsError) :
  stopping s = false ->
  connected s = true ->
  dataOf options s payload = Return data ->
  assertsExchange options s = true ->
  channelName ∉ assertedExchanges s ->
  assertExchangeSettles world = Throw err ->
  let s' := final (publish channelName payload options world) s in
  result (publish channelName payload options world) s = Throw err /\
  brokerCalls (events (publish channelName payload options world) s) = [] /\
  exchangesAsserted "fanout"
    (events (publish channelName payload options world) s) = [channelName] /\
  forall payload' options' world',
    exchangesAsserted "fanout"
      (events (publish channelName payload' options' world') s') = [].
Proof.
  intros Hs Hc Hdata Hon Hnew Hassert s'.
  assert (Hrun :
    result (publish channelName payload options world) s = Throw err /\
    brokerCalls (events (publish channelName payload options world) s) = [] /\
    exchangesAsserted "fanout"
      (events (publish channelName payload options world) s) = [channelName] /\
    channelName ∈ assertedExchanges s').
  { subst s'. unfold dataOf in Hdata. unfold assertsExchange in Hon.
    unfold publish. run. rewrite Hs, Hc. run.
    destruct (raw options);
      [ injection Hdata as <-
      | destruct (serialize (serializer s) payload) as [body | |]; try done;
        injection Hdata as <- ];
      run;
      (match goal with
       | |- context [if ?c then _ else _] =>
           change c with
             ((defaultsDeep_publishAssertExchange
                 (publishAssertExchange options)
                 (ao_publishAssertExchange (opt_amqp (opts s)))).1
              && negb (bool_decide (channelName ∈ assertedExchanges s)))
       end);
      rewrite Hon, (bool_decide_eq_false_2 _ Hnew); run;
      rewrite Hassert; run; repeat split; try done; set_solver. }
  destruct Hrun as (Hres & Hcalls & Hasserted & Hin).
  repeat split; try done.
  intros payload' options' world'. by apply publish_known_exchange.
Qed.

Lemma publish_remembers_failed_assertion_witness :
  result (publish "orders" (VString "x") Scenario.asserting Scenario.refusing)
    Sample.online
  = Throw Sample.boom /\
  exchangesAsserted "fanout"
    (events (publish "orders" (VString "x") Scenario.asserting Sample.draining)
       (final (publish "orders" (VString "x") Scenario.asserting
                 Scenario.refusing) Sample.online))
  = [].
Proof.
  destruct (publish_remembers_failed_assertion "orders" (VString "x")
              Scenario.asserting Scenario.refusing Sample.online
              (VBuffer "{}") Sample.boom)
    as (Hres & _ & _ & Hlater);
    [ reflexivity | reflexivity | reflexivity | reflexivity
    | apply not_elem_of_empty | reflexivity |].
  split; [exact Hres | apply Hlater].
Defined.

(** X14. An error thrown by [channel.publish] reaches the caller as it is
    when the write buffer was ready; after a wait for the buffer, whatever
    is thrown, by the wait or by the send, reaches the caller as the error
    of a full write buffer. *)
Theorem publish_masks_errors_after_wait
    (channelName : string) (payload : Value) (options : PublishOpts)
    (world : World) (s : Adapter) (data : Value) :
  stopping s = false ->
  connected s = true ->
  dataOf options s payload = Return data ->
  assertExchangeSettles world = Return tt ->
  (writeBufferReady s = true ->
   forall err, publishReturns world = Throw err ->
     result (publish channelName payload options world) s = Throw err) /\
  (writeBufferReady s = false ->
   forall err,
     result (publish channelName payload options world) s = Throw err ->
     err = new MoleculerError "AMQP publish error: write buffer full").
Proof.
  intros Hs Hc Hdata Hassert. unfold dataOf in Hdata. split.
  - intros Hw err Hthrow. unfold publish. run. rewrite Hs, Hc. run.
    destruct (raw options);
      [ injection Hdata as <-
      | destruct (serialize (serializer s) payload) as [body | |]; try done;
        injection Hdata as <- ];
      run;
      (match goal with
       | |- context [if ?c then _ else _] => destruct c
       end); run; rewrite ?Hassert; run; rewrite Hw; run; rewrite Hthrow;
      by run.
  - intros Hw err. unfold publish. run. rewrite Hs, Hc. run.
    destruct (raw options);
      [ injection Hdata as <-
      | destruct (serialize (serializer s) payload) as [body | |]; try done;
        injection Hdata as <- ];
      run;
      (match goal with
       | |- context [if ?c then _ else _] => destruct c
       end); run; rewrite ?Hassert; run; rewrite Hw; run;
      split_poll; run;
      try (destruct (publishReturns world) as [? | |]; run);
      intros Heq; congruence.
Qed.

Lemma publish_masks_errors_after_wait_witness :
  result (publish "orders" (VString "x") Sample.plain Scenario.closing)
    Sample.online
  = Throw Sample.boom /\
  forall err,
    result (publish "orders" (VString "x") Sample.plain Scenario.closing)
      (set_writeBufferReady false Sample.online)
    = Throw err ->
    err = new MoleculerError "AMQP publish error: write buffer full".
Proof.
  split.
  - exact (proj1 (publish_masks_errors_after_wait "orders" (VString "x")
                    Sample.plain Scenario.closing Sample.online (VBuffer "{}")
                    eq_refl eq_refl eq_refl eq_refl)
             eq_refl Sample.boom eq_refl).
  - apply (proj2 (publish_masks_errors_after_wait "orders" (VString "x")
                    Sample.plain Scenario.closing
                    (set_writeBufferReady false Sample.online) (VBuffer "{}")
                    eq_refl eq_refl eq_refl eq_refl) eq_refl).
Defined.

(** ** More on [subscribe] *)

Ltac subscribe_cases chan :=
  let cid := fresh "cid" in
  let cname := fresh "cname" in
  let cgroup := fresh "cgroup" in
  let chandler := fresh "chandler" in
  let cmax := fresh "cmax" in
  let cdl := fresh "cdl" in
  let camqp := fresh "camqp" in
  let cunsub := fresh "cunsub" in
  destruct chan as [cid cname cgroup chandler cmax cdl camqp cunsub];
  unfold subscribe, deadLetteringOf, defaultMaxRetries, mainQueueOptionsOf,
    retryQueueOptionsOf, retryQueueNameOf, retryExchangeNameOf, queueNameOf,
    subscribed, deadLetteringAfter;
  chan_fields;
  destruct cmax as [? |];
  repeat (run; chan_fields; split_match);
  run; chan_fields.

(** What [subscribe] returns and leaves in the adapter. *)
Lemma subscribe_leaves (chan : Channel) (tag : string) (s : Adapter) :
  let merged :=
    defaultsDeep_deadLettering (deadLettering chan)
      (opt_deadLettering (opts s)) in
  let dl := resolveDeadLettering merged s in
  result (subscribe chan tag) s = Return (subscribed chan s) /\
  subscriptions (final (subscribe chan tag) s)
  = map_set (id chan) {| chan := subscribed chan s; sub_consumerTag := tag |}
      (subscriptions s) /\
  assertedExchanges (final (subscribe chan tag) s)
  = (if Js.truthy_bool (enabled merged) && Js.truthy_ostr (exchangeName dl)
     then {[Js.interp (exchangeName dl)]} ∪ assertedExchanges s
     else assertedExchanges s) /\
  activeMessages (final (subscribe chan tag) s)
  = (match activeMessages s !! id chan with
     | Some _ => activeMessages s
     | None => <[id chan := ∅]> (activeMessages s)
     end).
Proof.
  intros merged dl. subst merged dl. subscribe_cases chan.
  all: try congruence.
  all: repeat split; try reflexivity.
  all: try (match goal with H : _ = _ |- _ => rewrite H end; reflexivity).
Qed.

Lemma subscribe_consumes (chan : Channel) (tag : string) (s : Adapter) :
  consumedQueues (events (subscribe chan tag) s) = [queueNameOf chan].
Proof. subscribe_cases chan; reflexivity. Qed.

Lemma subscribe_declares_dead_letter_queue
    (chan : Channel) (tag : string) (s : Adapter) :
  Js.truthy_bool
    (enabled (defaultsDeep_deadLettering (deadLettering chan)
                (opt_deadLettering (opts s)))) = true ->
  In (AssertQueue (queueName (deadLetteringAfter chan s))
        (enforceQuorum (queueOptionsOf chan s)))
    (events (subscribe chan tag) s).
Proof.
  subscribe_cases chan.
  all: intros Hon; try congruence.
  all: find_event.
Qed.



Lemma map_set_keys (key : string) (value : Subscription)
    (m : list (string * Subscription)) :
  (map_set key value m).*1
  = match map_get key m with Some _ => m.*1 | None => m.*1 ++ [key] end.
Proof.
  induction m as [| [k v] m IH]; cbn [map_set map_get]; [done |].
  destruct (String.eqb_spec k key) as [-> | Hk]; [done |].
  cbn [fmap list_fmap]. cbn [fmap] in IH. rewrite IH.
  by destruct (map_get key m).
Qed.

Lemma map_get_none (key : string) (m : list (string * Subscription)) :
  map_get key m = None -> key ∉ m.*1.
Proof.
  induction m as [| [k v] m IH]; cbn [map_get];
    [intros _; apply not_elem_of_nil |].
  destruct (String.eqb_spec k key) as [-> | Hk]; [done |].
  intros Hnone%IH. cbn. apply not_elem_of_cons. split; [congruence | done].
Qed.


(** X16. Every queue that [subscribe] declares is declared as a quorum
    queue, whatever queue type the options ask for; a warning is logged
    exactly when the options ask for another type. *)
Theorem subscribe_forces_quorum (chan : Channel) (tag : string) (s : Adapter) :
  Forall (fun declared : option string * QueueOptions =>
            exists args,
              arguments declared.2 = Some args /\
              args !! "x-queue-type" = Some "quorum")
    (queuesAsserted (events (subscribe chan tag) s)) /\
  List.existsb isWarning (events (subscribe chan tag) s)
  = Js.truthy_ostr (queueTypeOf (queueOptionsOf chan s))
    && negb (String.eqb (default "" (queueTypeOf (queueOptionsOf chan s)))
               "quorum").
Proof.
  subscribe_cases chan.
  all: split; [| cbn [List.existsb isWarning orb]; congruence].
  all: cbn; repeat constructor; eexists; (split; [reflexivity |]);
    apply lookup_insert_eq.
Qed.






(** X20. A channel that is subscribed again as the table holds it, as a
    reconnection does, has the names of its dead-letter queue and exchange
    resolved a second time: they are the prefixing applied twice to the
    configured names, and the dead-letter queue is declared under the
    name prefixed twice. *)
Theorem resubscribe_resolves_again
    (chan : Channel) (tag tag' : string) (s s' : Adapter)
    (q q1 x x1 : string) :
  let merged :=
    defaultsDeep_deadLettering (deadLettering chan)
      (opt_deadLettering (opts s)) in
  opts s' = opts s ->
  addPrefixTopic s' = addPrefixTopic s ->
  Js.truthy_bool (enabled merged) = true ->
  queueName merged = Some q ->
  addPrefixTopic s (Some q) = Some q1 ->
  exchangeName merged = Some x ->
  Js.truthy_str x = true ->
  addPrefixTopic s (Some x) = Some x1 ->
  Js.truthy_str x1 = true ->
  exists chan1 chan2 dl,
    result (subscribe chan tag) s = Return chan1 /\
    result (subscribe chan1 tag') s' = Return chan2 /\
    deadLettering chan2 = Some dl /\
    queueName dl = addPrefixTopic s (Some q1) /\
    exchangeName dl = addPrefixTopic s (Some x1) /\
    In (AssertQueue (addPrefixTopic s (Some q1))
          (enforceQuorum (queueOptionsOf chan1 s')))
      (events (subscribe chan1 tag') s').
Proof.
  intros merged Ho Hp Hon Hq Hq1 Hx Hxt Hx1 Hx1t. subst merged.
  destruct (subscribe_leaves chan tag s) as (Hres & _).
  destruct (subscribe_leaves (subscribed chan s) tag' s') as (Hres' & _).
  assert (Hfirst : deadLetteringAfter chan s
                   = {| enabled := enabled
                          (defaultsDeep_deadLettering (deadLettering chan)
                             (opt_deadLettering (opts s)));
                        queueName := Some q1; exchangeName := Some x1 |}).
  { unfold deadLetteringAfter. rewrite Hon. unfold resolveDeadLettering.
    rewrite Hq, Hq1, Hx. unfold Js.truthy_ostr. cbn [default]. rewrite Hxt.
    by rewrite Hx1. }
  assert (Hen : exists b, enabled
                  (defaultsDeep_deadLettering (deadLettering chan)
                     (opt_deadLettering (opts s))) = Some b /\
                  Js.truthy_bool (Some b) = true).
  { destruct (enabled _) as [b |] eqn:He; [by exists b | done]. }
  destruct Hen as (b & Hb & Hbt). destruct b; [| done]. clear Hbt.
  assert (Hsecond : deadLetteringAfter (subscribed chan s) s'
                    = {| enabled := Some true;
                         queueName := addPrefixTopic s (Some q1);
                         exchangeName := addPrefixTopic s (Some x1) |}).
  { unfold deadLetteringAfter at 1. unfold subscribed at 1 2.
    cbn [deadLettering]. rewrite Hfirst, Hb.
    unfold defaultsDeep_deadLettering, resolveDeadLettering, Js.truthy_ostr.
    cbn. rewrite Hx1t, Hp. done. }
  exists (subscribed chan s), (subscribed (subscribed chan s) s'),
    (deadLetteringAfter (subscribed chan s) s').
  split; [done |]. split; [done |]. split; [done |].
  rewrite Hsecond. cbn [queueName exchangeName].
  split; [done |]. split; [done |].
  pose proof (subscribe_declares_dead_letter_queue (subscribed chan s) tag' s')
    as Hin.
  rewrite Hsecond in Hin. cbn [queueName] in Hin. apply Hin.
  unfold subscribed at 1. cbn [deadLettering]. rewrite Hfirst, Hb.
  unfold defaultsDeep_deadLettering. by cbn.
Qed.

Lemma resubscribe_resolves_again_witness :
  exists chan1 chan2 dl,
    result (subscribe Scenario.working "amq.ctag-1") Sample.online
    = Return chan1 /\
    result (subscribe chan1 "amq.ctag-2") Scenario.listening = Return chan2 /\
    deadLettering chan2 = Some dl /\
    queueName dl = Some "prod.prod.FAILED_MESSAGES" /\
    exchangeName dl = Some "prod.prod.DEAD_LETTER" /\
    In (AssertQueue (Some "prod.prod.FAILED_MESSAGES")
          (enforceQuorum (queueOptionsOf chan1 Scenario.listening)))
      (events (subscribe chan1 "amq.ctag-2") Scenario.listening).
Proof.
  exact (resubscribe_resolves_again Scenario.working "amq.ctag-1" "amq.ctag-2"
           Sample.online Scenario.listening
           "FAILED_MESSAGES" "prod.FAILED_MESSAGES"
           "DEAD_LETTER" "prod.DEAD_LETTER"
           eq_refl eq_refl eq_refl eq_refl eq_refl eq_refl eq_refl eq_refl
           eq_refl).
Defined.

(** ** Connecting and resubscribing *)

(** What a resubscription of [subs] does. *)
Lemma resubscribeEach_leaves (tagOf : string -> string)
    (subs : list (string * Subscription)) :
  forall s,
    result (resubscribeEach subs tagOf) s = Return tt /\
    consumedQueues (events (resubscribeEach subs tagOf) s)
    = map (fun entry : string * Subscription => queueNameOf (chan entry.2))
        subs /\
    forallb isDeclaration (events (resubscribeEach subs tagOf) s) = true /\
    carriesOn s (final (resubscribeEach subs tagOf) s).
Proof.
  induction subs as [| [key sub] subs IH]; intros s; cbn [resubscribeEach].
  - repeat split; done.
  - destruct (subscribe_leaves (chan sub) (tagOf (id (chan sub))) s)
      as (Hres & _).
    pose proof (subscribe_consumes (chan sub) (tagOf (id (chan sub))) s)
      as Hcons.
    pose proof
      (subscribe_emits_declarations (chan sub) (tagOf (id (chan sub))) s)
      as Hdecl.
    pose proof (carriesOn_subscribe (chan sub) (tagOf (id (chan sub))) s)
      as Hcarry.
    unfold result, events, final in *. rewrite run_bind.
    destruct (subscribe (chan sub) (tagOf (id (chan sub))) s)
      as [[r s1] w1]. cbn [fst snd] in *. subst r.
    specialize (IH s1).
    destruct (resubscribeEach subs tagOf s1) as [[r2 s2] w2].
    cbn [fst snd map] in *. destruct IH as (-> & Hc2 & Hd2 & Hcarry2).
    split; [done |]. split; [| split].
    + unfold consumedQueues in *. by rewrite omap_app, Hcons, Hc2.
    + by rewrite forallb_app, Hdecl, Hd2.
    + by eapply carriesOn_trans.
Qed.

Lemma tryConnect_fails (err : JsError) (tagOf : string -> string)
    (s : Adapter) :
  exists s1 uri,
    tryConnect (Throw err) tagOf s
    = (Throw err, s1, [Log debug "Connecting to AMQP server..."; Connect uri])
    /\ connected s1 = connected s
    /\ connectionCount s1 = connectionCount s
    /\ subscriptions s1 = subscriptions s.
Proof.
  unfold tryConnect. run. destruct (url (opt_amqp (opts s))); run;
    by do 2 eexists.
Qed.

Lemma tryConnect_succeeds (tagOf : string -> string) (s : Adapter) :
  exists s1 w,
    tryConnect (Return tt) tagOf s = (Return tt, s1, w)
    /\ connected s1 = true
    /\ connectionCount s1 = connectionCount s + 1
    /\ length (connectedTo w) = 1%nat
    /\ List.filter isTimer w = []
    /\ brokerCalls w = []
    /\ consumedQueues w
       = if 0 <? connectionCount s then subscribedQueues s else [].
Proof.
  unfold tryConnect. run.
  destruct (url (opt_amqp (opts s))); run;
    destruct (maxInFlight (opts s)); run;
    destruct (Z.ltb_spec 1 (connectionCount s + 1));
    destruct (Z.ltb_spec 0 (connectionCount s)); try lia; run;
    try (do 2 eexists; repeat split; reflexivity).
  all: unfold resubscribeAllChannels; run.
  all: match goal with
       | |- context [resubscribeEach ?subs ?t ?s0] =>
           destruct (resubscribeEach_leaves t subs s0)
             as (Hres & Hcons & Hdecl & Hcarry);
           destruct (declarations_apart _ Hdecl) as (Ht & Hc & Hb);
           unfold result, events, final in *;
           destruct (resubscribeEach subs t s0) as [[r2 s2] w2]
       end.
  all: cbn [fst snd] in *; subst r2.
  all: destruct Hcarry as (_ & _ & _ & _ & Hconn & _ & Hcount & _).
  all: cbn [connected connectionCount set_connectionCount set_connected
            set_connectAttempt subscriptions] in *.
  all: do 2 eexists; split; [reflexivity |].
  all: unfold connectedTo, brokerCalls, consumedQueues in *; cbn.
  all: rewrite ?Ht, ?Hc, ?Hb, ?Hcons; repeat split; done.
Qed.


(** X22. [connect] never rejects: whatever the attempts answer, it returns
    or stays pending. *)
Theorem connect_never_rejects (answers : list (Completion unit))
    (tagOf : string -> string) (s : Adapter) (err : JsError) :
  result (connect answers tagOf) s <> Throw err.
Proof.
  revert s. induction answers as [| a answers IH]; intros s; [done |].
  cbn [connect]. unfold result, tryCatch.
  destruct a as [[] | e |].
  - destruct (tryConnect_succeeds tagOf s) as (s1 & w & -> & _). done.
  - destruct (tryConnect_fails e tagOf s) as (s1 & uri & -> & _).
    run. specialize (IH s1). unfold result in IH.
    by destruct (connect answers tagOf s1) as [[r s2] w2].
  - unfold tryConnect. run. destruct (url (opt_amqp (opts s))); run; done.
Qed.


(** ** Invariants of the adapter *)

(** X24. But for a connection attempt, no call on the adapter (subscribe,
    publish, a delivery, a drain event) changes the options, the
    serializer, the prefixing, the stopping and connected flags or the
    counters of attempts and connections, and none forgets an exchange
    known to be asserted. *)
Theorem calls_carry_on (tagOf : string -> string) (calls : list Call)
    (s : Adapter) :
  forallb (fun c => negb (isTryConnect c)) calls = true ->
  carriesOn s (history tagOf calls s).
Proof.
  revert s. induction calls as [| c calls IH]; intros s Hcalls.
  - apply carriesOn_refl.
  - cbn [forallb] in Hcalls. apply andb_prop in Hcalls as [Hc Hrest].
    change (history tagOf (c :: calls) s)
      with (history tagOf calls (perform tagOf c s)).
    eapply carriesOn_trans; [| by apply IH].
    destruct c as [answer | ch tag | cn payload options world | ch msg |];
      cbn [perform]; try discriminate.
    + apply carriesOn_subscribe.
    + apply carriesOn_publish.
    + apply carriesOn_handler.
    + by repeat split.
Qed.

Lemma calls_carry_on_witness :
  carriesOn Sample.online
    (history (fun _ => "amq.ctag-1")
       [CallSubscribe Scenario.working "amq.ctag-1";
        CallPublish "orders" (VString "x") Scenario.asserting Sample.draining;
        CallDeliver Scenario.working Sample.order;
        CallDrain]
       Sample.online).
Proof.
  exact (calls_carry_on (fun _ => "amq.ctag-1")
           [CallSubscribe Scenario.working "amq.ctag-1";
            CallPublish "orders" (VString "x") Scenario.asserting
              Sample.draining;
            CallDeliver Scenario.working Sample.order;
            CallDrain]
           Sample.online eq_refl).
Defined.

Lemma keyed_map_set (c : Channel) (tag : string)
    (m : list (string * Subscription)) :
  Forall (fun entry : string * Subscription => entry.1 = id (chan entry.2)) m ->
  NoDup m.*1 ->
  Forall (fun entry : string * Subscription => entry.1 = id (chan entry.2))
    (map_set (id c) {| chan := c; sub_consumerTag := tag |} m) /\
  NoDup (map_set (id c) {| chan := c; sub_consumerTag := tag |} m).*1.
Proof.
  intros Hkeyed Hnodup. split.
  - induction Hkeyed as [| [k v] m Hk Hm IH]; cbn [map_set].
    + by repeat constructor.
    + destruct (String.eqb_spec k (id c)) as [-> | Hne].
      * by constructor.
      * constructor; [done |]. apply IH. by inversion Hnodup.
  - rewrite map_set_keys. destruct (map_get (id c) m) eqn:Hget; [done |].
    apply NoDup_app. split; [done |]. split; [| apply NoDup_singleton].
    intros k Hin ->%list_elem_of_singleton.
    by apply (map_get_none _ _ Hget).
Qed.

Lemma keyed_subscribe (c : Channel) (tag : string) (s : Adapter) :
  keyedById s -> keyedById (final (subscribe c tag) s).
Proof.
  intros [Hkeyed Hnodup]. unfold keyedById.
  destruct (subscribe_leaves c tag s) as (_ & -> & _).
  apply (keyed_map_set (subscribed c s) tag); done.
Qed.

Lemma keyed_resubscribeEach (tagOf : string -> string)
    (subs : list (string * Subscription)) :
  forall s, keyedById s -> keyedById (final (resubscribeEach subs tagOf) s).
Proof.
  induction subs as [| [key sub] subs IH]; intros s Hs;
    cbn [resubscribeEach]; [done |].
  pose proof (keyed_subscribe (chan sub) (tagOf (id (chan sub))) s Hs) as H1.
  destruct (subscribe_leaves (chan sub) (tagOf (id (chan sub))) s)
    as (Hres & _).
  unfold final, result in *. rewrite run_bind.
  destruct (subscribe (chan sub) (tagOf (id (chan sub))) s) as [[r s1] w1].
  cbn [fst snd] in *. subst r. specialize (IH s1 H1).
  by destruct (resubscribeEach subs tagOf s1) as [[r2 s2] w2].
Qed.

Lemma keyed_tryConnect (answer : Completion unit) (tagOf : string -> string)
    (s : Adapter) :
  keyedById s -> keyedById (final (tryConnect answer tagOf) s).
Proof.
  intros Hs. unfold tryConnect. run.
  destruct (url (opt_amqp (opts s))); run;
    destruct answer as [[] | e |]; run; try done;
    destruct (maxInFlight (opts s)); run;
    destruct (1 <? connectionCount s + 1); run; try done.
  all: unfold resubscribeAllChannels; run.
  all: match goal with
       | |- context [resubscribeEach ?subs ?t ?s0] =>
           pose proof (keyed_resubscribeEach t subs s0 Hs) as Hk;
           unfold final in Hk;
           destruct (resubscribeEach subs t s0) as [[r2 s2] w2]
       end.
  all: exact Hk.
Qed.

(** X25. Whatever was called on an adapter since its construction
    (connection attempts, subscriptions, publications, deliveries, drain
    events), its subscription table holds at most one entry per key, and
    every entry is stored under the id of its channel. *)
Theorem table_keyed_by_id
    (o : Options) (ser : Serializer) (pre : option string -> option string)
    (tagOf : string -> string) (calls : list Call) :
  keyedById (history tagOf calls (AmqpAdapter o ser pre)).
Proof.
  assert (Hgen : forall s, keyedById s -> keyedById (history tagOf calls s)).
  { induction calls as [| c calls IH]; intros s Hs; [done |].
    change (history tagOf (c :: calls) s)
      with (history tagOf calls (perform tagOf c s)).
    apply IH.
    destruct c as [answer | ch tag | cn payload options world | ch msg |];
      cbn [perform].
    - by apply keyed_tryConnect.
    - by apply keyed_subscribe.
    - unfold keyedById.
      by rewrite (sameTable_publish cn payload options world s).
    - unfold keyedById. by rewrite (sameTable_handler ch msg s).
    - done. }
  apply Hgen. split; [constructor | constructor].
Qed.

(** ** [unsubscribe] and the drain of a channel *)

Lemma size_zero (ids : gset string) :
  (Z.of_nat (size ids) =? 0) = bool_decide (ids = ∅).
Proof.
  destruct (decide (ids = ∅)) as [-> | Hne].
  - by rewrite size_empty.
  - rewrite bool_decide_eq_false_2 by done. apply Z.eqb_neq.
    intros Hz. apply Hne. apply leibniz_equiv, size_empty_inv. lia.
Qed.

Lemma checkPendingMessages_leaves (chan : Channel)
    (later : list (gmap string (gset string))) :
  forall s,
    let m := checkPendingMessages chan later in
    let seen := seenBy (id chan) (activeMessages s :: later) in
    result m s
    = (if bool_decide (waitsFor seen < length seen)%nat then Return tt
       else Pending) /\
    List.filter isTimer (events m s)
    = replicate (waitsFor seen) (SetTimeout 1000) /\
    brokerCalls (events m s) = [] /\
    sameTable s (final m s) /\ carriesOn s (final m s) /\
    (result m s = Return tt -> activeMessages (final m s) !! id chan = None).
Proof.
  induction later as [| active later IH]; intros s; cbn zeta;
    cbn [checkPendingMessages]; unfold getNumberOfChannelActiveMessages,
      stopChannelActiveMessages, seenBy; run; rewrite size_zero;
    cbn [map waitsFor length];
    change (default ∅ (activeMessages s !! id chan))
      with (activeOf (id chan) s);
    destruct (bool_decide (activeOf (id chan) s = ∅)) eqn:Hz; run.
  - repeat split; try done. intros _. apply lookup_delete_eq.
  - repeat split; try done.
  - case_bool_decide; [| lia].
    repeat split; try done. intros _. apply lookup_delete_eq.
  - specialize (IH (set_activeMessages active s)). cbn zeta in IH.
    unfold result, events, final, seenBy in IH.
    cbn [activeMessages set_activeMessages map] in IH.
    destruct (checkPendingMessages chan later (set_activeMessages active s))
      as [[r s2] w2].
    cbn [fst snd length waitsFor] in *.
    destruct IH as (Hr & Ht & Hb & Hsame & Hcarry & Hstop).
    split.
    { rewrite Hr. repeat case_bool_decide; try done; lia. }
    split; [cbn; by rewrite Ht |]. split; [cbn; exact Hb |].
    split; [exact Hsame |]. split; [exact Hcarry | exact Hstop].
Qed.

(** X26. [unsubscribe] of a channel that is already being unsubscribed, or
    that has no entry in the subscription table, returns at once and
    leaves the adapter, its tracker included, as it was: it only logs, and
    sets no timer. *)
Theorem unsubscribe_guarded (chan : Channel)
    (cancelSettles : string -> Completion unit)
    (meanwhile : gmap string (gset string))
    (later : list (gmap string (gset string))) (s : Adapter) :
  unsubscribing chan = true \/ map_get (id chan) (subscriptions s) = None ->
  let m := unsubscribe chan cancelSettles meanwhile later in
  result m s = Return tt /\
  final m s = s /\
  forallb isDeclaration (events m s) = true /\
  consumedQueues (events m s) = [].
Proof.
  intros Hcase m. subst m. unfold unsubscribe.
  destruct (unsubscribing chan) eqn:Hu; run; [done |].
  destruct Hcase as [? | Hnone]; [done |].
  cbn [id set_unsubscribing]. rewrite Hnone. by run.
Qed.

Lemma unsubscribe_guarded_witness :
  final (unsubscribe Scenario.working (fun _ => Throw Sample.boom)
           Scenario.atWork [Scenario.atWork]) Sample.online
  = Sample.online.
Proof.
  exact (proj1 (proj2
           (unsubscribe_guarded Scenario.working (fun _ => Throw Sample.boom)
              Scenario.atWork [Scenario.atWork] Sample.online
              (or_intror eq_refl)))).
Defined.

(** X27. Once the cancellation of the consumer has settled,
    [unsubscribe] checks the tracker of the channel at once and then every
    second: each check that finds handlers of the channel at work sets one
    timer of a second, and the first check that finds none ends the call,
    which leaves the channel untracked; while no check finds none the call
    stays pending.  The call settles no message and leaves the
    subscription table as it was. *)
Theorem unsubscribe_waits_for_handlers (chan : Channel) (sub : Subscription)
    (cancelSettles : string -> Completion unit)
    (meanwhile : gmap string (gset string))
    (later : list (gmap string (gset string))) (s : Adapter) :
  unsubscribing chan = false ->
  map_get (id chan) (subscriptions s) = Some sub ->
  cancelSettles (sub_consumerTag sub) = Return tt ->
  let m := unsubscribe chan cancelSettles meanwhile later in
  let seen := seenBy (id chan) (meanwhile :: later) in
  result m s
  = (if bool_decide (waitsFor seen < length seen)%nat then Return tt
     else Pending) /\
  List.filter isTimer (events m s)
  = replicate (waitsFor seen) (SetTimeout 1000) /\
  brokerCalls (events m s) = [] /\
  subscriptions (final m s) = subscriptions s /\
  (result m s = Return tt -> activeMessages (final m s) !! id chan = None).
Proof.
  intros Hu Hsub Hcancel m seen. subst m seen. unfold unsubscribe.
  rewrite Hu. run. cbn [id set_unsubscribing]. rewrite Hsub. run.
  rewrite Hcancel. run.
  pose proof (checkPendingMessages_leaves (set_unsubscribing true chan) later
                (set_activeMessages meanwhile s))
    as Hdrain.
  cbn zeta in Hdrain. unfold result, events, final in Hdrain.
  cbn [id set_unsubscribing activeMessages set_activeMessages] in Hdrain.
  destruct (checkPendingMessages (set_unsubscribing true chan) later
              (set_activeMessages meanwhile s))
    as [[r s2] w2].
  cbn [fst snd] in *.
  destruct Hdrain as (Hr & Ht & Hb & Hsame & _ & Hstop).
  repeat split; try done.
Qed.

Lemma unsubscribe_waits_for_handlers_witness :
  let m :=
    unsubscribe Scenario.working (fun _ => Return tt) Scenario.atWork
      [Scenario.atWork; ∅] in
  result m Scenario.listening = Return tt /\
  List.filter isTimer (events m Scenario.listening)
  = [SetTimeout 1000; SetTimeout 1000] /\
  result (unsubscribe Scenario.working (fun _ => Return tt) Scenario.atWork [])
    Scenario.listening
  = Pending.
Proof.
  destruct (unsubscribe_waits_for_handlers Scenario.working
              {| chan := subscribed Scenario.working Sample.online;
                 sub_consumerTag := "amq.ctag-1" |}
              (fun _ => Return tt) Scenario.atWork [Scenario.atWork; ∅]
              Scenario.listening)
    as (Hres & Htimers & _); [reflexivity | reflexivity | reflexivity |].
  destruct (unsubscribe_waits_for_handlers Scenario.working
              {| chan := subscribed Scenario.working Sample.online;
                 sub_consumerTag := "amq.ctag-1" |}
              (fun _ => Return tt) Scenario.atWork [] Scenario.listening)
    as (Hpending & _); [reflexivity | reflexivity | reflexivity |].
  split; [exact Hres |]. split; [exact Htimers | exact Hpending].
Defined.



(** X29. The subscription outlives [unsubscribe]: whatever the outcome of
    the call, the entry of the channel stays in the subscription table,
    and the next reconnection registers a consumer on its queue again. *)
Theorem unsubscribed_channel_is_resubscribed (ch : Channel)
    (sub : Subscription) (cancelSettles : string -> Completion unit)
    (meanwhile : gmap string (gset string))
    (later : list (gmap string (gset string))) (tagOf : string -> string)
    (s : Adapter) :
  map_get (id ch) (subscriptions s) = Some sub ->
  0 < connectionCount s ->
  let s' := final (unsubscribe ch cancelSettles meanwhile later) s in
  map_get (id ch) (subscriptions s') = Some sub /\
  In (queueNameOf (chan sub))
    (consumedQueues (events (tryConnect (Return tt) tagOf) s')).
Proof.
  intros Hsub Hcount s'.
  assert (Hkeep : subscriptions s' = subscriptions s /\
                  connectionCount s' = connectionCount s).
  { subst s'. unfold unsubscribe.
    destruct (unsubscribing ch); run; [done |].
    cbn [id set_unsubscribing]. rewrite Hsub. run.
    destruct (cancelSettles (sub_consumerTag sub)) as [[] | err |]; run;
      try done.
    destruct (checkPendingMessages_leaves (set_unsubscribing true ch)
                later (set_activeMessages meanwhile s))
      as (_ & _ & _ & Hsame & Hcarry & _).
    unfold final in *.
    destruct (checkPendingMessages (set_unsubscribing true ch) later
                (set_activeMessages meanwhile s))
      as [[r s2] w2].
    cbn [fst snd] in *. split; [exact Hsame |].
    by destruct Hcarry as (_ & _ & _ & _ & _ & _ & ? & _). }
  destruct Hkeep as [Htable Hn]. rewrite Htable. split; [done |].
  destruct (tryConnect_succeeds tagOf s')
    as (s1 & w & Heq & _ & _ & _ & _ & _ & Hcons).
  unfold events. rewrite Heq. cbn [snd]. rewrite Hcons.
  replace (0 <? connectionCount s') with true
    by (symmetry; apply Z.ltb_lt; lia).
  unfold subscribedQueues. rewrite Htable. clear -Hsub.
  induction (subscriptions s) as [| [k v] m IH]; [done |].
  cbn [map_get] in Hsub. cbn [map].
  destruct (String.eqb k (id ch)).
  - left. by injection Hsub as ->.
  - right. by apply IH.
Qed.

Lemma unsubscribed_channel_is_resubscribed_witness :
  In "billing.orders"
    (consumedQueues
       (events (tryConnect (Return tt) (fun _ => "amq.ctag-2"))
          (final (unsubscribe Scenario.working (fun _ => Return tt) ∅ [])
             Scenario.listening))).
Proof.
  exact (proj2
           (unsubscribed_channel_is_resubscribed Scenario.working
              {| chan := subscribed Scenario.working Sample.online;
                 sub_consumerTag := "amq.ctag-1" |}
              (fun _ => Return tt) ∅ [] (fun _ => "amq.ctag-2")
              Scenario.listening eq_refl eq_refl)).
Defined.
